(** * Bill splitter bot (src/main.py): a shallow embedding

    The bot keeps one MongoDB document per bill.  We model that document as a
    record [bill], the pure helpers of main.py (item_per_person, person_total,
    bill_total, bill_grand_total, person_grand_total, person_fee_breakdown) as
    functions on it, and every Telegram handler as a function from the active
    bill and the event to what the handler writes back (a saved document, a
    deletion, or nothing at all).

    Python floats are abstracted by the class [PyNum]: the engine is written
    once over it and used at two instances, exact rationals [Q] (the intended
    arithmetic, where the algebraic properties are proved) and IEEE binary64
    [PrimFloat.float] (what CPython computes, where rounding shows). *)

From Stdlib Require Import ZArith QArith Qfield Qabs Floats Uint63 List String Ascii
  Bool Lia Permutation.
Import ListNotations.

Open Scope Z_scope.

(** ** Python numbers *)

(** A float literal as [float()] reads it: an optionally signed decimal
    [digits[.digits]], or one of the words [inf], [infinity], [nan] in any
    letter case.  (CPython also accepts exponents and underscores; the handlers
    modelled here do not need them.) *)
Inductive float_lit :=
| LitDec (neg : bool) (mantissa : N) (frac_digits : nat)
| LitInf (neg : bool)
| LitNan.

Class PyNum (A : Type) := {
  num_of_Z : Z -> A;
  num_add : A -> A -> A;
  num_sub : A -> A -> A;
  num_mul : A -> A -> A;
  num_div : A -> A -> A;
  num_eqb : A -> A -> bool;   (* Python == *)
  num_leb : A -> A -> bool;   (* Python <= *)
  num_of_lit : float_lit -> option A
}.

Declare Scope py_scope.
Delimit Scope py_scope with py.
Infix "+" := num_add : py_scope.
Infix "-" := num_sub : py_scope.
Infix "*" := num_mul : py_scope.
Infix "/" := num_div : py_scope.

Definition pow10 (k : nat) : Z := 10 ^ Z.of_nat k.

(** Exact rationals: the arithmetic the formulas of the bot are meant in.
    Rationals have no infinities and no NaN, so those literals have no value. *)
#[global] Instance PyNum_Q : PyNum Q := {
  num_of_Z := inject_Z;
  num_add := Qplus;
  num_sub := Qminus;
  num_mul := Qmult;
  num_div := Qdiv;
  num_eqb := Qeq_bool;
  num_leb := Qle_bool;
  num_of_lit l :=
    match l with
    | LitDec neg m k =>
        let q := Qmake (Z.of_N m) (Z.to_pos (pow10 k)) in
        Some (if neg then Qopp q else q)
    | _ => None
    end
}.

Definition float_of_Z (z : Z) : PrimFloat.float :=
  if z <? 0 then PrimFloat.opp (PrimFloat.of_uint63 (Uint63.of_Z (- z)))
  else PrimFloat.of_uint63 (Uint63.of_Z z).

(** IEEE binary64, as CPython's float.  A decimal literal is read as one
    correctly rounded division [mantissa / 10^k], which is CPython's value
    whenever the mantissa is below 2^53 and [k <= 22]. *)
#[global] Instance PyNum_float : PyNum PrimFloat.float := {
  num_of_Z := float_of_Z;
  num_add := PrimFloat.add;
  num_sub := PrimFloat.sub;
  num_mul := PrimFloat.mul;
  num_div := PrimFloat.div;
  num_eqb := PrimFloat.eqb;
  num_leb := PrimFloat.leb;
  num_of_lit l :=
    match l with
    | LitDec neg m k =>
        let x := PrimFloat.div (float_of_Z (Z.of_N m)) (float_of_Z (pow10 k)) in
        Some (if neg then PrimFloat.opp x else x)
    | LitInf neg => Some (if neg then PrimFloat.neg_infinity else PrimFloat.infinity)
    | LitNan => Some PrimFloat.nan
    end
}.

(** ** Strings: ASCII whitespace, strip, lower, rsplit, float() *)

Definition is_space (c : ascii) : bool :=
  match nat_of_ascii c with
  | 32 | 9 | 10 | 11 | 12 | 13 => true
  | _ => false
  end%nat.

Fixpoint drop_spaces (l : list ascii) : list ascii :=
  match l with
  | c :: r => if is_space c then drop_spaces r else l
  | [] => []
  end.

(** [str.strip()] *)
Definition strip (l : list ascii) : list ascii := rev (drop_spaces (rev (drop_spaces l))).

Fixpoint take_word (l : list ascii) : list ascii * list ascii :=
  match l with
  | c :: r =>
      if is_space c then ([], l)
      else let '(w, rest) := take_word r in (c :: w, rest)
  | [] => ([], [])
  end.

(** [s.rsplit(None, 1)]: the last whitespace-separated word and, when
    something other than whitespace precedes it, what precedes it. *)
Definition rsplit1 (l : list ascii) : list (list ascii) :=
  let r := drop_spaces (rev l) in
  match r with
  | [] => []
  | _ =>
      let '(w, rest) := take_word r in
      match drop_spaces rest with
      | [] => [rev w]
      | before => [rev before; rev w]
      end
  end.

Fixpoint split_words_aux (fuel : nat) (l : list ascii) : list (list ascii) :=
  match fuel with
  | O => []
  | S fuel =>
      match drop_spaces l with
      | [] => []
      | l' => let '(w, rest) := take_word l' in w :: split_words_aux fuel rest
      end
  end.

(** [s.split()] *)
Definition split_words (l : list ascii) : list (list ascii) :=
  split_words_aux (List.length l) l.

Definition lower_char (c : ascii) : ascii :=
  let n := nat_of_ascii c in
  if andb (Nat.leb 65 n) (Nat.leb n 90) then ascii_of_nat (n + 32) else c.

(** [str.lower()] on ASCII letters *)
Definition lower (l : list ascii) : list ascii := map lower_char l.

(** [s.replace(",", "")] *)
Definition remove_commas (l : list ascii) : list ascii :=
  filter (fun c => negb (Ascii.eqb c ","%char)) l.

Definition digit_of (c : ascii) : option N :=
  let n := nat_of_ascii c in
  if andb (Nat.leb 48 n) (Nat.leb n 57) then Some (N.of_nat (n - 48)) else None.

(** digits, then optionally a point and digits; accumulates the mantissa and
    counts the digits after the point *)
Fixpoint lex_digits (seen_point : bool) (any_digit : bool) (m : N) (k : nat)
  (l : list ascii) : option (N * nat) :=
  match l with
  | [] => if any_digit then Some (m, k) else None
  | c :: r =>
      if Ascii.eqb c "."%char then
        if seen_point then None else lex_digits true any_digit m k r
      else
        match digit_of c with
        | Some d => lex_digits seen_point true (10 * m + d)%N
                      (if seen_point then S k else k) r
        | None => None
        end
  end.

Definition lex_unsigned (neg : bool) (l : list ascii) : option float_lit :=
  let w := string_of_list_ascii (lower l) in
  if orb (String.eqb w "inf") (String.eqb w "infinity") then Some (LitInf neg)
  else if String.eqb w "nan" then Some LitNan
  else match lex_digits false false 0%N O l with
       | Some (m, k) => Some (LitDec neg m k)
       | None => None
       end.

Definition lex_float (l : list ascii) : option float_lit :=
  match strip l with
  | c :: r =>
      if Ascii.eqb c "-"%char then lex_unsigned true r
      else if Ascii.eqb c "+"%char then lex_unsigned false r
      else lex_unsigned false (c :: r)
  | [] => None
  end.

(** [float(s)]: [None] is the [ValueError] *)
Definition py_float {A} `{PyNum A} (l : list ascii) : option A :=
  match lex_float l with
  | Some lit => num_of_lit lit
  | None => None
  end.

(** ** The bill document (new_bill_doc) *)

(** A Telegram user, as [get_display_name] reads it. *)
Record user := mk_user {
  uid : Z;
  username : option string;
  first_name : option string;
  last_name : option string
}.

(** An entry of [item["claimed_by"]]: [{"user_id": ..., "name": ...}]. *)
Record claim := mk_claim { claim_user_id : Z; claim_name : string }.

Record item (A : Type) := mk_item {
  item_id : Z;
  item_name : string;
  price : A;
  claimed_by : list claim
}.
Arguments mk_item {A}.
Arguments item_id {A}.
Arguments item_name {A}.
Arguments price {A}.
Arguments claimed_by {A}.

(** The bill document.  [members] is the insertion-ordered dict
    [str(user_id) -> display name]; since [str] is injective on ints its keys
    are kept as the ints themselves.  [fees_mode] holds the stored string
    ("both_inclusive", "sc_exclusive_vat_inclusive", "both_exclusive") or
    [None]; times are opaque timestamps. *)
Record bill (A : Type) := mk_bill {
  chat_id : Z;
  creator_id : Z;
  creator_name : string;
  currency : option string;
  jpy_to_thb_rate : option A;
  service_charge_pct : option A;
  vat_pct : option A;
  fees_mode : option string;
  items : list (item A);
  members : list (Z * string);
  next_item_id : Z;
  created_at : Z;
  is_finalized : bool;
  finalized_at : option Z;
  awaiting_photo : bool;
  awaiting_manual_rate : bool;
  awaiting_fees : bool
}.
Arguments mk_bill {A}.
Arguments chat_id {A}.
Arguments creator_id {A}.
Arguments creator_name {A}.
Arguments currency {A}.
Arguments jpy_to_thb_rate {A}.
Arguments service_charge_pct {A}.
Arguments vat_pct {A}.
Arguments fees_mode {A}.
Arguments items {A}.
Arguments members {A}.
Arguments next_item_id {A}.
Arguments created_at {A}.
Arguments is_finalized {A}.
Arguments finalized_at {A}.
Arguments awaiting_photo {A}.
Arguments awaiting_manual_rate {A}.
Arguments awaiting_fees {A}.

Section Engine.
Context {A : Type} `{PyNum A}.
Local Open Scope py_scope.

Definition new_bill_doc (chat creator : Z) (cname : string) (now : Z) : bill A :=
  mk_bill chat creator cname None None None None None [] [(creator, cname)] 1 now
    false None false false false.

(** Functional record updates of the fields the handlers write. *)
Definition with_currency (b : bill A) (c : option string) : bill A :=
  let '(mk_bill ch cr cn _ r sc v m its mem nx ca fin fa ap ar af) := b in
  mk_bill ch cr cn c r sc v m its mem nx ca fin fa ap ar af.
Definition with_rate (b : bill A) (x : option A) : bill A :=
  let '(mk_bill ch cr cn c _ sc v m its mem nx ca fin fa ap ar af) := b in
  mk_bill ch cr cn c x sc v m its mem nx ca fin fa ap ar af.
Definition with_fees (b : bill A) (sc v : option A) (m : option string) : bill A :=
  let '(mk_bill ch cr cn c r _ _ _ its mem nx ca fin fa ap ar af) := b in
  mk_bill ch cr cn c r sc v m its mem nx ca fin fa ap ar af.
Definition with_items (b : bill A) (its : list (item A)) : bill A :=
  let '(mk_bill ch cr cn c r sc v m _ mem nx ca fin fa ap ar af) := b in
  mk_bill ch cr cn c r sc v m its mem nx ca fin fa ap ar af.
Definition with_members (b : bill A) (mem : list (Z * string)) : bill A :=
  let '(mk_bill ch cr cn c r sc v m its _ nx ca fin fa ap ar af) := b in
  mk_bill ch cr cn c r sc v m its mem nx ca fin fa ap ar af.
Definition with_next_item_id (b : bill A) (nx : Z) : bill A :=
  let '(mk_bill ch cr cn c r sc v m its mem _ ca fin fa ap ar af) := b in
  mk_bill ch cr cn c r sc v m its mem nx ca fin fa ap ar af.
Definition with_finalized (b : bill A) (fin : bool) (fa : option Z) : bill A :=
  let '(mk_bill ch cr cn c r sc v m its mem nx ca _ _ ap ar af) := b in
  mk_bill ch cr cn c r sc v m its mem nx ca fin fa ap ar af.
Definition with_awaiting_photo (b : bill A) (ap : bool) : bill A :=
  let '(mk_bill ch cr cn c r sc v m its mem nx ca fin fa _ ar af) := b in
  mk_bill ch cr cn c r sc v m its mem nx ca fin fa ap ar af.
Definition with_awaiting_manual_rate (b : bill A) (ar : bool) : bill A :=
  let '(mk_bill ch cr cn c r sc v m its mem nx ca fin fa ap _ af) := b in
  mk_bill ch cr cn c r sc v m its mem nx ca fin fa ap ar af.
Definition with_awaiting_fees (b : bill A) (af : bool) : bill A :=
  let '(mk_bill ch cr cn c r sc v m its mem nx ca fin fa ap ar _) := b in
  mk_bill ch cr cn c r sc v m its mem nx ca fin fa ap ar af.

(** ** DB helpers and the fee engine *)

(** [add_item_to_bill]: the new item and the bill it is appended to. *)
Definition add_item_to_bill (b : bill A) (name : string) (p : A) : bill A * item A :=
  let it := mk_item (next_item_id b) name p [] in
  (with_next_item_id (with_items b (items b ++ [it])) (next_item_id b + 1)%Z, it).

Definition get_item (b : bill A) (id : Z) : option (item A) :=
  find (fun it => Z.eqb (item_id it) id) (items b).

Definition item_per_person (it : item A) : A :=
  let n := List.length (claimed_by it) in
  if Nat.ltb 0 n then price it / num_of_Z (Z.of_nat n) else price it.

(** [any(str(c["user_id"]) == uid for c in claimed_by)] *)
Definition has_claim (u : Z) (cs : list claim) : bool :=
  existsb (fun c => Z.eqb (claim_user_id c) u) cs.

(** [person_total]: the inner loop adds the share once, at the first claim of
    the user, and breaks. *)
Definition person_total (b : bill A) (u : Z) : A :=
  fold_left (fun total it =>
               if has_claim u (claimed_by it) then total + item_per_person it else total)
            (items b) (num_of_Z 0).

(** [sum(i["price"] for i in items)] *)
Definition bill_total (b : bill A) : A :=
  fold_left (fun s it => s + price it) (items b) (num_of_Z 0).

(** [x or 0] on a stored percentage *)
Definition or0 (o : option A) : A :=
  match o with
  | Some x => if num_eqb x (num_of_Z 0) then num_of_Z 0 else x
  | None => num_of_Z 0
  end.

Definition mode_is (m : option string) (s : string) : bool :=
  match m with Some x => String.eqb x s | None => false end.

Definition bill_grand_total (b : bill A) : A :=
  let subtotal := bill_total b in
  let sc_pct := or0 (service_charge_pct b) in
  let vat_pct := or0 (vat_pct b) in
  let mode := fees_mode b in
  if mode_is mode "both_inclusive" then subtotal
  else if mode_is mode "sc_exclusive_vat_inclusive" then
    subtotal * (num_of_Z 1 + sc_pct / num_of_Z 100)
  else if mode_is mode "both_exclusive" then
    let after_sc := subtotal * (num_of_Z 1 + sc_pct / num_of_Z 100) in
    after_sc * (num_of_Z 1 + vat_pct / num_of_Z 100)
  else subtotal.

Definition person_grand_total (b : bill A) (u : Z) : A :=
  let subtotal := bill_total b in
  if num_eqb subtotal (num_of_Z 0) then num_of_Z 0
  else
    let p_subtotal := person_total b u in
    let ratio := p_subtotal / subtotal in
    bill_grand_total b * ratio.

(** [person_fee_breakdown]: (item_subtotal, sc_amount, vat_amount, total) *)
Definition person_fee_breakdown (b : bill A) (u : Z) : A * A * A * A :=
  let subtotal := bill_total b in
  if num_eqb subtotal (num_of_Z 0) then
    (num_of_Z 0, num_of_Z 0, num_of_Z 0, num_of_Z 0)
  else
    let p_sub := person_total b u in
    let sc_pct := or0 (service_charge_pct b) in
    let vat_pct := or0 (vat_pct b) in
    let mode := fees_mode b in
    if mode_is mode "both_inclusive" then
      let divisor := (num_of_Z 1 + sc_pct / num_of_Z 100)
                     * (num_of_Z 1 + vat_pct / num_of_Z 100) in
      let base := if num_eqb divisor (num_of_Z 0) then p_sub else p_sub / divisor in
      let sc_amt := base * sc_pct / num_of_Z 100 in
      let vat_amt := (base + sc_amt) * vat_pct / num_of_Z 100 in
      (p_sub, sc_amt, vat_amt, p_sub)
    else if mode_is mode "sc_exclusive_vat_inclusive" then
      let total := p_sub * (num_of_Z 1 + sc_pct / num_of_Z 100) in
      let sc_amt := p_sub * sc_pct / num_of_Z 100 in
      let before_vat := if num_eqb vat_pct (num_of_Z 0) then total
                        else total / (num_of_Z 1 + vat_pct / num_of_Z 100) in
      let vat_amt := total - before_vat in
      (p_sub, sc_amt, vat_amt, total)
    else if mode_is mode "both_exclusive" then
      let sc_amt := p_sub * sc_pct / num_of_Z 100 in
      let vat_amt := (p_sub + sc_amt) * vat_pct / num_of_Z 100 in
      let total := p_sub + sc_amt + vat_amt in
      (p_sub, sc_amt, vat_amt, total)
    else (p_sub, num_of_Z 0, num_of_Z 0, p_sub).

End Engine.

(** ** Telegram handlers *)

Fixpoint digits_aux (fuel : nat) (n : N) (acc : string) : string :=
  match fuel with
  | O => acc
  | S f =>
      let acc' := String (ascii_of_N (48 + N.modulo n 10)) acc in
      if N.ltb n 10 then acc' else digits_aux f (N.div n 10) acc'
  end.

(** [str(n)] for an int *)
Definition z_to_string (z : Z) : string :=
  let s := digits_aux 64 (Z.abs_N z) EmptyString in
  if z <? 0 then String "-"%char s else s.

Definition truthy (o : option string) : bool :=
  match o with Some s => negb (String.eqb s "") | None => false end.

Definition strip_s (s : string) : string :=
  string_of_list_ascii (strip (list_ascii_of_string s)).

Definition get_display_name (u : user) : string :=
  let at_name :=
  match username u with
  | Some n => if truthy (Some n) then Some ("@" ++ n)%string else None
  | None => None
  end in
  match at_name with
  | Some s => s
  | None =>
      let name := match first_name u with Some f => f | None => ""%string end in
      let name := match last_name u with
                  | Some l => if truthy (Some l) then (name ++ " " ++ l)%string else name
                  | None => name
                  end in
      let s := strip_s name in
      if String.eqb s "" then ("User#" ++ z_to_string (uid u))%string else s
  end.

(** What a handler asked the user (the reply text, by kind). *)
Inductive reply :=
| Ok | Notice | Usage | InvalidInput | NeedJoin | ItemNotFound
| AlreadyClaimed | NotCreator | MemberNotJoined | EmptyBill.

(** What a handler writes back: nothing, the (mutated) bill, or a deletion. *)
Inductive outcome (A : Type) :=
| Keep (r : reply)
| Save (b : bill A) (r : reply)
| Delete (r : reply).
Arguments Keep {A}.
Arguments Save {A}.
Arguments Delete {A}.

(** [callback_query.data], already split at its colons and its numbers read. *)
Inductive callback (A : Type) :=
| CbCurrency (c : string)
| CbRateAuto (fetched : option A)        (* fetch_jpy_to_thb_rate() *)
| CbRateManual
| CbInputPhoto
| CbInputManual
| CbFeesConfirm (sc vat : A) (mode : string)
| CbFeesPickMode (sc vat : A)
| CbFeesEdit
| CbFeesNone
| CbPick (item : Z)
| CbFinalize (now : Z)
| CbOther.
Arguments CbCurrency {A}.
Arguments CbRateAuto {A}.
Arguments CbRateManual {A}.
Arguments CbInputPhoto {A}.
Arguments CbInputManual {A}.
Arguments CbFeesConfirm {A}.
Arguments CbFeesPickMode {A}.
Arguments CbFeesEdit {A}.
Arguments CbFeesNone {A}.
Arguments CbPick {A}.
Arguments CbFinalize {A}.
Arguments CbOther {A}.

(** The events of one chat.  A command carries its text after the command
    word (the [re.sub] of the handler), or, for the commands read with
    [re.search], the groups of the match ([None] when it does not match).
    [EvPhoto] carries what [parse_receipt_ocr] returned. *)
Inductive event (A : Type) :=
| EvNewBill (now : Z)
| EvJoin
| EvAddItem (args : list ascii)
| EvItems
| EvPick (m : option Z)
| EvUnpick (m : option Z)
| EvAssign (m : option (Z * string))
| EvResetPicks
| EvSetFees (args : list ascii)
| EvDone (now : Z)
| EvCancel
| EvHistory
| EvHelp
| EvCallback (cb : callback A)
| EvPhoto (found : list (string * A)) (sc vat : option A) (mode : option string)
| EvText (text : list ascii).
Arguments EvNewBill {A}.
Arguments EvJoin {A}.
Arguments EvAddItem {A}.
Arguments EvItems {A}.
Arguments EvPick {A}.
Arguments EvUnpick {A}.
Arguments EvAssign {A}.
Arguments EvResetPicks {A}.
Arguments EvSetFees {A}.
Arguments EvDone {A}.
Arguments EvCancel {A}.
Arguments EvHistory {A}.
Arguments EvHelp {A}.
Arguments EvCallback {A}.
Arguments EvPhoto {A}.
Arguments EvText {A}.

Section Handlers.
Context {A : Type} `{PyNum A}.

Definition py_lt (x y : A) : bool := andb (num_leb x y) (negb (num_eqb x y)).

(** [d[k] = v] on an insertion-ordered dict *)
Fixpoint dict_set {V} (k : Z) (v : V) (d : list (Z * V)) : list (Z * V) :=
  match d with
  | [] => [(k, v)]
  | (k', v') :: r => if Z.eqb k k' then (k, v) :: r else (k', v') :: dict_set k v r
  end.

Definition dict_has {V} (k : Z) (d : list (Z * V)) : bool :=
  existsb (fun kv => Z.eqb (fst kv) k) d.

(** Mutating the object [get_item] returned: the first item with that id. *)
Fixpoint update_item (id : Z) (f : item A -> item A) (its : list (item A)) : list (item A) :=
  match its with
  | [] => []
  | it :: r => if Z.eqb (item_id it) id then f it :: r else it :: update_item id f r
  end.

Definition set_claims (cs : list claim) (it : item A) : item A :=
  mk_item (item_id it) (item_name it) (price it) cs.

Definition without_user (u : Z) (cs : list claim) : list claim :=
  filter (fun c => negb (Z.eqb (claim_user_id c) u)) cs.

Definition with_item_claims (b : bill A) (id : Z) (cs : list claim) : bill A :=
  with_items b (update_item id (set_claims cs) (items b)).

Definition cmd_additem (b : bill A) (text : list ascii) : outcome A :=
  match text with
  | [] => Keep Usage
  | _ =>
      match rsplit1 text with
      | [p0; p1] =>
          let name := string_of_list_ascii (strip p0) in
          match py_float (remove_commas p1) with
          | None => Keep InvalidInput
          | Some p =>
              if num_leb p (num_of_Z 0) then Keep InvalidInput
              else Save (fst (add_item_to_bill b name p)) Ok
          end
      | _ => Keep Usage
      end
  end.

Definition cmd_join (b : bill A) (u : user) : outcome A :=
  if dict_has (uid u) (members b) then Keep Notice
  else Save (with_members b (dict_set (uid u) (get_display_name u) (members b))) Ok.

Definition cmd_pick (b : bill A) (u : user) (m : option Z) : outcome A :=
  if negb (dict_has (uid u) (members b)) then Keep NeedJoin
  else match m with
  | None => Keep Usage
  | Some id =>
      match get_item b id with
      | None => Keep ItemNotFound
      | Some it =>
          if has_claim (uid u) (claimed_by it) then Keep AlreadyClaimed
          else Save (with_item_claims b id
                       (claimed_by it ++ [mk_claim (uid u) (get_display_name u)])) Ok
      end
  end.

Definition cmd_unpick (b : bill A) (u : user) (m : option Z) : outcome A :=
  match m with
  | None => Keep Usage
  | Some id =>
      match get_item b id with
      | None => Keep ItemNotFound
      | Some it => Save (with_item_claims b id (without_user (uid u) (claimed_by it))) Ok
      end
  end.

(** the first member whose stored name equals [@target], ignoring case *)
Definition find_member (mem : list (Z * string)) (target : string) : option (Z * string) :=
  find (fun kv => String.eqb (string_of_list_ascii (lower (list_ascii_of_string (snd kv))))
                             (string_of_list_ascii (lower (list_ascii_of_string ("@" ++ target)))))
       mem.

Definition cmd_assign (b : bill A) (u : user) (m : option (Z * string)) : outcome A :=
  if negb (Z.eqb (uid u) (creator_id b)) then Keep NotCreator
  else match m with
  | None => Keep Usage
  | Some (id, target) =>
      match get_item b id with
      | None => Keep ItemNotFound
      | Some it =>
          match find_member (members b) target with
          | None => Keep MemberNotJoined
          | Some (target_uid, target_name) =>
              if has_claim target_uid (claimed_by it) then Keep AlreadyClaimed
              else Save (with_item_claims b id
                           (claimed_by it ++ [mk_claim target_uid target_name])) Ok
          end
      end
  end.

Definition cmd_resetpicks (b : bill A) (u : user) : outcome A :=
  Save (with_items b (map (fun it => set_claims (without_user (uid u) (claimed_by it)) it)
                          (items b))) Ok.

Definition mode_map (flag : string) : option string :=
  if existsb (String.eqb flag) ["both_inc"; "both_inclusive"; "inclusive"; "inc"]%string
  then Some "both_inclusive"%string
  else if existsb (String.eqb flag) ["sc_exc"; "sc_exclusive_vat_inclusive"; "sc_exclusive"]%string
  then Some "sc_exclusive_vat_inclusive"%string
  else if existsb (String.eqb flag) ["both_exc"; "both_exclusive"; "exclusive"; "exc"]%string
  then Some "both_exclusive"%string
  else None.

Definition cmd_setfees (b : bill A) (text : list ascii) : outcome A :=
  match text with
  | [] => Keep Notice
  | _ =>
      let parts := split_words text in
      let sc := match parts with p0 :: _ => py_float p0 | [] => None end in
      let vat := match parts with
                 | _ :: p1 :: _ => py_float p1
                 | _ => Some (num_of_Z 0)
                 end in
      match sc, vat with
      | Some sc, Some vat =>
          if orb (py_lt sc (num_of_Z 0)) (py_lt vat (num_of_Z 0)) then Keep Usage
          else
            let fm := match parts with
                      | _ :: _ :: p2 :: _ => mode_map (string_of_list_ascii (lower p2))
                      | _ => None
                      end in
            let some_fee := orb (py_lt (num_of_Z 0) sc) (py_lt (num_of_Z 0) vat) in
            match fm with
            | None => if some_fee then Keep Notice
                      else Save (with_awaiting_fees (with_fees b (Some sc) (Some vat) None) false) Ok
            | Some _ =>
                Save (with_awaiting_fees
                        (with_fees b (Some sc) (Some vat) (if some_fee then fm else None))
                        false) Ok
            end
      | _, _ => Keep Usage
      end
  end.

Definition cmd_done (b : bill A) (now : Z) : outcome A :=
  match items b with
  | [] => Keep EmptyBill
  | _ => Save (with_finalized b true (Some now)) Ok
  end.

Definition cmd_cancel (b : bill A) (u : user) : outcome A :=
  if negb (Z.eqb (uid u) (creator_id b)) then Keep NotCreator else Delete Ok.

Definition callback_handler (b : bill A) (u : user) (cb : callback A) : outcome A :=
  match cb with
  | CbCurrency c =>
      if negb (Z.eqb (uid u) (creator_id b)) then Keep NotCreator
      else Save (with_currency b (Some c)) Ok
  | CbRateAuto r =>
      match r with
      | Some x => if num_eqb x (num_of_Z 0) then Save (with_awaiting_manual_rate b true) Notice
                  else Save (with_rate b (Some x)) Ok
      | None => Save (with_awaiting_manual_rate b true) Notice
      end
  | CbRateManual => Save (with_awaiting_manual_rate b true) Notice
  | CbInputPhoto => Save (with_awaiting_photo b true) Notice
  | CbInputManual => Keep Notice
  | CbFeesConfirm sc vat mode =>
      Save (with_awaiting_fees (with_fees b (Some sc) (Some vat) (Some mode)) false) Ok
  | CbFeesPickMode _ _ => Keep Notice
  | CbFeesEdit => Save (with_awaiting_fees b true) Notice
  | CbFeesNone =>
      Save (with_awaiting_fees (with_fees b (Some (num_of_Z 0)) (Some (num_of_Z 0)) None) false) Ok
  | CbPick id =>
      match get_item b id with
      | None => Keep ItemNotFound
      | Some it =>
          let b1 := if dict_has (uid u) (members b) then b
                    else with_members b (dict_set (uid u) (get_display_name u) (members b)) in
          let name := get_display_name u in
          if has_claim (uid u) (claimed_by it)
          then Save (with_item_claims b1 id (without_user (uid u) (claimed_by it))) Ok
          else Save (with_item_claims b1 id (claimed_by it ++ [mk_claim (uid u) name])) Ok
      end
  | CbFinalize now =>
      match items b with
      | [] => Keep EmptyBill
      | _ => Save (with_finalized b true (Some now)) Ok
      end
  | CbOther => Keep Notice
  end.

Definition photo_handler (b : bill A) (found : list (string * A)) : outcome A :=
  let b1 := with_awaiting_photo b false in
  match found with
  | [] => Save b1 Notice
  | _ => Save (fold_left (fun acc np => fst (add_item_to_bill acc (fst np) (snd np))) found b1) Ok
  end.

Definition text_handler (b : bill A) (text : list ascii) : outcome A :=
  if negb (awaiting_manual_rate b) then Keep Notice
  else match py_float (remove_commas (strip text)) with
       | None => Keep InvalidInput
       | Some r =>
           if num_leb r (num_of_Z 0) then Keep InvalidInput
           else Save (with_awaiting_manual_rate (with_rate b (Some r)) false) Ok
       end.

(** Dispatch of an event of user [u] against the chat's active bill. *)
Definition handle (b : bill A) (u : user) (e : event A) : outcome A :=
  match e with
  | EvNewBill _ => Keep Notice
  | EvJoin => cmd_join b u
  | EvAddItem t => cmd_additem b t
  | EvItems => Keep Notice
  | EvPick m => cmd_pick b u m
  | EvUnpick m => cmd_unpick b u m
  | EvAssign m => cmd_assign b u m
  | EvResetPicks => cmd_resetpicks b u
  | EvSetFees t => cmd_setfees b t
  | EvDone now => cmd_done b now
  | EvCancel => cmd_cancel b u
  | EvHistory => Keep Notice
  | EvHelp => Keep Notice
  | EvCallback cb => callback_handler b u cb
  | EvPhoto found _ _ _ => photo_handler b found
  | EvText t => text_handler b t
  end.

End Handlers.

(** ** The spec's side: fee modes, the per-mode formula, conservation *)

Inductive fee_mode := AllInclusive | ServiceChargeExclusiveVatInclusive | BothExclusive.

Definition mode_of (m : option string) : option fee_mode :=
  if mode_is m "both_inclusive" then Some AllInclusive
  else if mode_is m "sc_exclusive_vat_inclusive" then Some ServiceChargeExclusiveVatInclusive
  else if mode_is m "both_exclusive" then Some BothExclusive
  else None.

Section SpecSide.
Context {A : Type} `{PyNum A}.
Local Open Scope py_scope.

(** The spec's table: the amount payable for a raw item amount [s]. *)
Definition grand_formula (m : option fee_mode) (s sc vat : A) : A :=
  match m with
  | None | Some AllInclusive => s
  | Some ServiceChargeExclusiveVatInclusive => s * (num_of_Z 1 + sc / num_of_Z 100)
  | Some BothExclusive =>
      s * (num_of_Z 1 + sc / num_of_Z 100) * (num_of_Z 1 + vat / num_of_Z 100)
  end.

Definition mode_total (b : bill A) (s : A) : A :=
  grand_formula (mode_of (fees_mode b)) s (or0 (service_charge_pct b)) (or0 (vat_pct b)).

(** the fourth component of [person_fee_breakdown] *)
Definition payable (b : bill A) (u : Z) : A :=
  let '(_, _, _, t) := person_fee_breakdown b u in t.

Definition holds_claim (b : bill A) (u : Z) : bool :=
  existsb (fun it => has_claim u (claimed_by it)) (items b).

Definition unclaimed_subtotal (b : bill A) : A :=
  fold_left (fun s it => match claimed_by it with [] => s + price it | _ => s end)
            (items b) (num_of_Z 0).

(** [sum(payable(m) for m in L if m holds a claim) + sum(price of unclaimed)] *)
Definition conservation_lhs (b : bill A) (L : list Z) : A :=
  fold_left (fun s u => s + payable b u) (filter (holds_claim b) L) (num_of_Z 0)
  + unclaimed_subtotal b.

(** the same sum with the unclaimed items priced by the mode's formula *)
Definition conservation_lhs_fees (b : bill A) (L : list Z) : A :=
  fold_left (fun s u => s + payable b u) (filter (holds_claim b) L) (num_of_Z 0)
  + mode_total b (unclaimed_subtotal b).

(** two successive taps on an item's pick button *)
Definition pick_twice (b : bill A) (u : user) (id : Z) : outcome A :=
  match callback_handler b u (CbPick id) with
  | Save b1 _ => callback_handler b1 u (CbPick id)
  | o => o
  end.

(** a claim of member [u], re-made under the name [n] *)
Definition rename_claim (u : Z) (n : string) (c : claim) : claim :=
  if Z.eqb (claim_user_id c) u then mk_claim u n else c.

End SpecSide.

(** ** Invariants the handlers keep *)

Section InvariantDefs.
Context {A : Type}.
Implicit Types (b : bill A).

(** item ids are distinct and below [next_item_id] *)
Definition ids_ok b : Prop :=
  NoDup (map item_id (items b)) /\ Forall (fun i => i < next_item_id b) (map item_id (items b)).

(** no item lists a member twice among its claims *)
Definition claims_nodup b : Prop :=
  Forall (fun it => NoDup (map claim_user_id (claimed_by it))) (items b).

(** every claimant is a key of [members] *)
Definition claimants_joined b : Prop :=
  Forall (fun it => Forall (fun c => dict_has (claim_user_id c) (members b) = true)
                           (claimed_by it)) (items b).


(** what of an item is fixed at creation *)
Definition item_view (it : item A) : Z * string * A := (item_id it, item_name it, price it).

(** the items [add_item_to_bill] makes from [(name, price)] pairs, the first
    getting id [n] *)
Fixpoint numbered_items (n : Z) (found : list (string * A)) : list (item A) :=
  match found with
  | [] => []
  | (nm, p) :: r => mk_item n nm p [] :: numbered_items (n + 1) r
  end.

Context `{PyNum A}.



End InvariantDefs.

(** the loop of [photo_handler]: [for name, price in items: add_item_to_bill(bill, name, price)] *)
Abbreviation add_all := (fold_left (fun acc np => fst (add_item_to_bill acc (fst np) (snd np)))).


(** the bill a handler run leaves behind *)
Definition saved_or {A} (o : outcome A) (b : bill A) : bill A :=
  match o with Save b' _ => b' | _ => b end.

(** Sample users and a three-item table used by the examples below. *)
Definition demo_ann : user := mk_user 1 (Some "ann"%string) None None.
Definition demo_bob : user := mk_user 2 (Some "bob"%string) None None.
Definition demo_dan : user := mk_user 4 (Some "dan"%string) None None.

Definition demo_table : bill Q :=
  with_next_item_id
    (with_fees
       (with_members
          (with_items (new_bill_doc 10 1 "@ann" 0)
             [mk_item 1 "Pad Thai" (300#1) [mk_claim 1 "@ann"];
              mk_item 2 "Tom Yum" (200#1) [mk_claim 1 "@ann"; mk_claim 2 "@bob"];
              mk_item 3 "Mango Rice" (120#1) []])
          [(1, "@ann"); (2, "@bob"); (3, "@cat")]%string)
       (Some (10#1)) (Some (7#1)) (Some "both_exclusive"%string))
    4.

(** [sum(g(x) for x in l)] in exact arithmetic *)
Definition sumQ {T} (g : T -> Q) (l : list T) : Q :=
  fold_right (fun x acc => (g x + acc)%Q) 0%Q l.

(** ** Proofs *)

(** Record updates, read back. *)
Section Fields.
Context {A : Type}.
Implicit Types (b : bill A).

Lemma items_with_members b m : items (with_members b m) = items b.
Proof. destruct b; reflexivity. Qed.
Lemma items_with_items b its : items (with_items b its) = its.
Proof. destruct b; reflexivity. Qed.
Lemma members_with_items b its : members (with_items b its) = members b.
Proof. destruct b; reflexivity. Qed.
Lemma fees_mode_with_items b its : fees_mode (with_items b its) = fees_mode b.
Proof. destruct b; reflexivity. Qed.

Lemma currency_with_rate b x : currency (with_rate b x) = currency b.
Proof. destruct b; reflexivity. Qed.
Lemma currency_with_fees b s v m : currency (with_fees b s v m) = currency b.
Proof. destruct b; reflexivity. Qed.
Lemma currency_with_items b its : currency (with_items b its) = currency b.
Proof. destruct b; reflexivity. Qed.
Lemma currency_with_members b m : currency (with_members b m) = currency b.
Proof. destruct b; reflexivity. Qed.
Lemma currency_with_next_item_id b n : currency (with_next_item_id b n) = currency b.
Proof. destruct b; reflexivity. Qed.
Lemma currency_with_finalized b f t : currency (with_finalized b f t) = currency b.
Proof. destruct b; reflexivity. Qed.
Lemma currency_with_awaiting_photo b x : currency (with_awaiting_photo b x) = currency b.
Proof. destruct b; reflexivity. Qed.
Lemma currency_with_awaiting_manual_rate b x :
  currency (with_awaiting_manual_rate b x) = currency b.
Proof. destruct b; reflexivity. Qed.
Lemma currency_with_awaiting_fees b x : currency (with_awaiting_fees b x) = currency b.
Proof. destruct b; reflexivity. Qed.

End Fields.

Create Rewrite HintDb currency_db.
#[global] Hint Rewrite @currency_with_rate @currency_with_fees @currency_with_items
  @currency_with_members @currency_with_next_item_id @currency_with_finalized
  @currency_with_awaiting_photo @currency_with_awaiting_manual_rate
  @currency_with_awaiting_fees : currency_db.

(** Claim C9: the per-person share of an item is [price / max(1, |claims|)];
    with no claim the item is priced at its full value and nothing is divided
    by zero. *)
Theorem item_per_person_max_one (it : item Q) :
  (item_per_person it == price it / inject_Z (Z.max 1 (Z.of_nat (List.length (claimed_by it)))))%Q.
Proof.
  unfold item_per_person; cbn [num_div num_of_Z PyNum_Q].
  destruct (claimed_by it) as [|c cs]; cbn [List.length Nat.ltb Nat.leb].
  - rewrite Z.max_l by lia. unfold inject_Z, Qdiv, Qinv. simpl.
    rewrite Qmult_1_r. reflexivity.
  - rewrite Z.max_r by lia. reflexivity.
Qed.

(** [bill_grand_total] is the per-mode formula at the bill subtotal. *)
Lemma bill_grand_total_formula {A} `{PyNum A} (b : bill A) :
  bill_grand_total b = mode_total b (bill_total b).
Proof.
  unfold bill_grand_total, mode_total, mode_of.
  destruct (mode_is (fees_mode b) "both_inclusive"); [reflexivity|].
  destruct (mode_is (fees_mode b) "sc_exclusive_vat_inclusive"); [reflexivity|].
  destruct (mode_is (fees_mode b) "both_exclusive"); reflexivity.
Qed.

(** Claim C2: the grand total is the table's formula applied to the item
    subtotal: the subtotal for AllInclusive and unset, [subtotal*(1+sc/100)]
    for ServiceChargeExclusiveVatInclusive, [subtotal*(1+sc/100)*(1+vat/100)]
    for BothExclusive; in any number type, floats included. *)
Theorem grand_total_per_mode {A} `{PyNum A} (b : bill A) :
  bill_grand_total b =
  grand_formula (mode_of (fees_mode b)) (bill_total b)
                (or0 (service_charge_pct b)) (or0 (vat_pct b)).
Proof. exact (bill_grand_total_formula b). Qed.

(** Claim C6: with the fee mode unset, the stored percentages are inert: the
    grand total is the item subtotal, and every member's breakdown has zero
    service charge, zero VAT, and a payable equal to its item subtotal, which
    is the member's [person_total] whenever the bill subtotal is not zero. *)
Theorem unset_mode_fees_inert {A} `{PyNum A} (b : bill A) (Hmode : fees_mode b = None) :
  bill_grand_total b = bill_total b /\
  forall u,
    let '(s, sc_amt, vat_amt, t) := person_fee_breakdown b u in
    sc_amt = num_of_Z 0 /\ vat_amt = num_of_Z 0 /\ t = s /\
    (num_eqb (bill_total b) (num_of_Z 0) = false -> s = person_total b u).
Proof.
  split.
  - unfold bill_grand_total. rewrite Hmode. reflexivity.
  - intro u. unfold person_fee_breakdown. rewrite Hmode. cbn [mode_is].
    destruct (num_eqb (bill_total b) (num_of_Z 0)) eqn:E.
    + repeat split. discriminate.
    + repeat split.
Qed.

Definition demo_bill_unset : bill Q :=
  with_fees
    (with_items (new_bill_doc 10 1 "@ann" 0)
       [mk_item 1 "Pad Thai" (150#1) [mk_claim 1 "@ann"];
        mk_item 2 "Tom Yum" (200#1) []])
    (Some (10#1)) (Some (7#1)) None.

Lemma unset_mode_fees_inert_witness :
  fees_mode demo_bill_unset = None /\
  (bill_grand_total demo_bill_unset = bill_total demo_bill_unset /\
   forall u,
     let '(s, sc_amt, vat_amt, t) := person_fee_breakdown demo_bill_unset u in
     sc_amt = num_of_Z 0 /\ vat_amt = num_of_Z 0 /\ t = s /\
     (num_eqb (bill_total demo_bill_unset) (num_of_Z 0) = false ->
      s = person_total demo_bill_unset u)).
Proof. split; [reflexivity | apply unset_mode_fees_inert; reflexivity]. Defined.

(** Claim C7: when the creator assigns an item to a joined member who already
    holds a claim on it, /assign answers AlreadyClaimed and writes nothing: the
    claim set, like the rest of the bill, is unchanged (never toggled off). *)
Theorem assign_already_claimed {A} `{PyNum A} (b : bill A) (u : user) (id : Z)
  (target : string) (it : item A) (tu : Z) (tn : string)
  (Hcreator : uid u = creator_id b)
  (Hitem : get_item b id = Some it)
  (Hmember : find_member (members b) target = Some (tu, tn))
  (Hclaimed : has_claim tu (claimed_by it) = true) :
  handle b u (EvAssign (Some (id, target))) = Keep AlreadyClaimed.
Proof.
  cbn [handle]. unfold cmd_assign.
  rewrite Hcreator, Z.eqb_refl. cbn [negb].
  rewrite Hitem, Hmember, Hclaimed. reflexivity.
Qed.

Definition demo_bill_assign : bill Q :=
  with_members
    (with_items (new_bill_doc 10 1 "@ann" 0)
       [mk_item 1 "Pad Thai" (150#1) [mk_claim 2 "@Bob"]])
    [(1, "@ann"); (2, "@Bob")]%string.

Lemma assign_already_claimed_witness :
  handle demo_bill_assign (mk_user 1 (Some "ann"%string) None None)
         (EvAssign (Some (1, "bob"%string))) = Keep AlreadyClaimed.
Proof.
  apply (assign_already_claimed demo_bill_assign (mk_user 1 (Some "ann"%string) None None) 1
           "bob" (mk_item 1 "Pad Thai" (150#1) [mk_claim 2 "@Bob"]) 2 "@Bob"%string);
    vm_compute; reflexivity.
Defined.

(** Claim C8: /done and the finalize button on a bill with no item answer
    EmptyBill and write nothing (the bill stays unfinalized and unchanged);
    with at least one item both save the bill marked finalized. *)
Theorem finalize_requires_items {A} `{PyNum A} (b : bill A) (u : user) (now : Z) :
  match items b with
  | [] => handle b u (EvDone now) = Keep EmptyBill /\
          handle b u (EvCallback (CbFinalize now)) = Keep EmptyBill
  | _ :: _ => handle b u (EvDone now) = Save (with_finalized b true (Some now)) Ok /\
              handle b u (EvCallback (CbFinalize now)) =
                Save (with_finalized b true (Some now)) Ok /\
              is_finalized (with_finalized b true (Some now)) = true
  end.
Proof.
  cbn [handle callback_handler]. unfold cmd_done.
  destruct (items b); [split; reflexivity|].
  repeat split. destruct b; reflexivity.
Qed.


(** Record updates leave the other fields alone. *)
Section Frame.
Context {A : Type}.
Implicit Types (b : bill A).

Lemma items_with_currency b c : items (with_currency b c) = items b.
Proof. destruct b; reflexivity. Qed.
Lemma items_with_rate b x : items (with_rate b x) = items b.
Proof. destruct b; reflexivity. Qed.
Lemma items_with_fees b s v m : items (with_fees b s v m) = items b.
Proof. destruct b; reflexivity. Qed.
Lemma items_with_next_item_id b n : items (with_next_item_id b n) = items b.
Proof. destruct b; reflexivity. Qed.
Lemma items_with_finalized b f t : items (with_finalized b f t) = items b.
Proof. destruct b; reflexivity. Qed.
Lemma items_with_awaiting_photo b x : items (with_awaiting_photo b x) = items b.
Proof. destruct b; reflexivity. Qed.
Lemma items_with_awaiting_manual_rate b x : items (with_awaiting_manual_rate b x) = items b.
Proof. destruct b; reflexivity. Qed.
Lemma items_with_awaiting_fees b x : items (with_awaiting_fees b x) = items b.
Proof. destruct b; reflexivity. Qed.
Lemma members_with_currency b c : members (with_currency b c) = members b.
Proof. destruct b; reflexivity. Qed.
Lemma members_with_rate b x : members (with_rate b x) = members b.
Proof. destruct b; reflexivity. Qed.
Lemma members_with_fees b s v m : members (with_fees b s v m) = members b.
Proof. destruct b; reflexivity. Qed.
Lemma members_with_next_item_id b n : members (with_next_item_id b n) = members b.
Proof. destruct b; reflexivity. Qed.
Lemma members_with_finalized b f t : members (with_finalized b f t) = members b.
Proof. destruct b; reflexivity. Qed.
Lemma members_with_awaiting_photo b x : members (with_awaiting_photo b x) = members b.
Proof. destruct b; reflexivity. Qed.
Lemma members_with_awaiting_manual_rate b x : members (with_awaiting_manual_rate b x) = members b.
Proof. destruct b; reflexivity. Qed.
Lemma members_with_awaiting_fees b x : members (with_awaiting_fees b x) = members b.
Proof. destruct b; reflexivity. Qed.
Lemma next_item_id_with_currency b c : next_item_id (with_currency b c) = next_item_id b.
Proof. destruct b; reflexivity. Qed.
Lemma next_item_id_with_rate b x : next_item_id (with_rate b x) = next_item_id b.
Proof. destruct b; reflexivity. Qed.
Lemma next_item_id_with_fees b s v m : next_item_id (with_fees b s v m) = next_item_id b.
Proof. destruct b; reflexivity. Qed.
Lemma next_item_id_with_items b its : next_item_id (with_items b its) = next_item_id b.
Proof. destruct b; reflexivity. Qed.
Lemma next_item_id_with_members b m : next_item_id (with_members b m) = next_item_id b.
Proof. destruct b; reflexivity. Qed.
Lemma next_item_id_with_finalized b f t : next_item_id (with_finalized b f t) = next_item_id b.
Proof. destruct b; reflexivity. Qed.
Lemma next_item_id_with_awaiting_photo b x : next_item_id (with_awaiting_photo b x) = next_item_id b.
Proof. destruct b; reflexivity. Qed.
Lemma next_item_id_with_awaiting_manual_rate b x : next_item_id (with_awaiting_manual_rate b x) = next_item_id b.
Proof. destruct b; reflexivity. Qed.
Lemma next_item_id_with_awaiting_fees b x : next_item_id (with_awaiting_fees b x) = next_item_id b.
Proof. destruct b; reflexivity. Qed.
Lemma is_finalized_with_currency b c : is_finalized (with_currency b c) = is_finalized b.
Proof. destruct b; reflexivity. Qed.
Lemma is_finalized_with_rate b x : is_finalized (with_rate b x) = is_finalized b.
Proof. destruct b; reflexivity. Qed.
Lemma is_finalized_with_fees b s v m : is_finalized (with_fees b s v m) = is_finalized b.
Proof. destruct b; reflexivity. Qed.
Lemma is_finalized_with_items b its : is_finalized (with_items b its) = is_finalized b.
Proof. destruct b; reflexivity. Qed.
Lemma is_finalized_with_members b m : is_finalized (with_members b m) = is_finalized b.
Proof. destruct b; reflexivity. Qed.
Lemma is_finalized_with_next_item_id b n : is_finalized (with_next_item_id b n) = is_finalized b.
Proof. destruct b; reflexivity. Qed.
Lemma is_finalized_with_awaiting_photo b x : is_finalized (with_awaiting_photo b x) = is_finalized b.
Proof. destruct b; reflexivity. Qed.
Lemma is_finalized_with_awaiting_manual_rate b x : is_finalized (with_awaiting_manual_rate b x) = is_finalized b.
Proof. destruct b; reflexivity. Qed.
Lemma is_finalized_with_awaiting_fees b x : is_finalized (with_awaiting_fees b x) = is_finalized b.
Proof. destruct b; reflexivity. Qed.
Lemma creator_id_with_currency b c : creator_id (with_currency b c) = creator_id b.
Proof. destruct b; reflexivity. Qed.
Lemma creator_id_with_rate b x : creator_id (with_rate b x) = creator_id b.
Proof. destruct b; reflexivity. Qed.
Lemma creator_id_with_fees b s v m : creator_id (with_fees b s v m) = creator_id b.
Proof. destruct b; reflexivity. Qed.
Lemma creator_id_with_items b its : creator_id (with_items b its) = creator_id b.
Proof. destruct b; reflexivity. Qed.
Lemma creator_id_with_members b m : creator_id (with_members b m) = creator_id b.
Proof. destruct b; reflexivity. Qed.
Lemma creator_id_with_next_item_id b n : creator_id (with_next_item_id b n) = creator_id b.
Proof. destruct b; reflexivity. Qed.
Lemma creator_id_with_finalized b f t : creator_id (with_finalized b f t) = creator_id b.
Proof. destruct b; reflexivity. Qed.
Lemma creator_id_with_awaiting_photo b x : creator_id (with_awaiting_photo b x) = creator_id b.
Proof. destruct b; reflexivity. Qed.
Lemma creator_id_with_awaiting_manual_rate b x : creator_id (with_awaiting_manual_rate b x) = creator_id b.
Proof. destruct b; reflexivity. Qed.
Lemma creator_id_with_awaiting_fees b x : creator_id (with_awaiting_fees b x) = creator_id b.
Proof. destruct b; reflexivity. Qed.
Lemma fees_mode_with_currency b c : fees_mode (with_currency b c) = fees_mode b.
Proof. destruct b; reflexivity. Qed.
Lemma fees_mode_with_rate b x : fees_mode (with_rate b x) = fees_mode b.
Proof. destruct b; reflexivity. Qed.
Lemma fees_mode_with_members b m : fees_mode (with_members b m) = fees_mode b.
Proof. destruct b; reflexivity. Qed.
Lemma fees_mode_with_next_item_id b n : fees_mode (with_next_item_id b n) = fees_mode b.
Proof. destruct b; reflexivity. Qed.
Lemma fees_mode_with_finalized b f t : fees_mode (with_finalized b f t) = fees_mode b.
Proof. destruct b; reflexivity. Qed.
Lemma fees_mode_with_awaiting_photo b x : fees_mode (with_awaiting_photo b x) = fees_mode b.
Proof. destruct b; reflexivity. Qed.
Lemma fees_mode_with_awaiting_manual_rate b x : fees_mode (with_awaiting_manual_rate b x) = fees_mode b.
Proof. destruct b; reflexivity. Qed.
Lemma fees_mode_with_awaiting_fees b x : fees_mode (with_awaiting_fees b x) = fees_mode b.
Proof. destruct b; reflexivity. Qed.
Lemma service_charge_pct_with_currency b c : service_charge_pct (with_currency b c) = service_charge_pct b.
Proof. destruct b; reflexivity. Qed.
Lemma service_charge_pct_with_rate b x : service_charge_pct (with_rate b x) = service_charge_pct b.
Proof. destruct b; reflexivity. Qed.
Lemma service_charge_pct_with_items b its : service_charge_pct (with_items b its) = service_charge_pct b.
Proof. destruct b; reflexivity. Qed.
Lemma service_charge_pct_with_members b m : service_charge_pct (with_members b m) = service_charge_pct b.
Proof. destruct b; reflexivity. Qed.
Lemma service_charge_pct_with_next_item_id b n : service_charge_pct (with_next_item_id b n) = service_charge_pct b.
Proof. destruct b; reflexivity. Qed.
Lemma service_charge_pct_with_finalized b f t : service_charge_pct (with_finalized b f t) = service_charge_pct b.
Proof. destruct b; reflexivity. Qed.
Lemma service_charge_pct_with_awaiting_photo b x : service_charge_pct (with_awaiting_photo b x) = service_charge_pct b.
Proof. destruct b; reflexivity. Qed.
Lemma service_charge_pct_with_awaiting_manual_rate b x : service_charge_pct (with_awaiting_manual_rate b x) = service_charge_pct b.
Proof. destruct b; reflexivity. Qed.
Lemma service_charge_pct_with_awaiting_fees b x : service_charge_pct (with_awaiting_fees b x) = service_charge_pct b.
Proof. destruct b; reflexivity. Qed.
Lemma vat_pct_with_currency b c : vat_pct (with_currency b c) = vat_pct b.
Proof. destruct b; reflexivity. Qed.
Lemma vat_pct_with_rate b x : vat_pct (with_rate b x) = vat_pct b.
Proof. destruct b; reflexivity. Qed.
Lemma vat_pct_with_items b its : vat_pct (with_items b its) = vat_pct b.
Proof. destruct b; reflexivity. Qed.
Lemma vat_pct_with_members b m : vat_pct (with_members b m) = vat_pct b.
Proof. destruct b; reflexivity. Qed.
Lemma vat_pct_with_next_item_id b n : vat_pct (with_next_item_id b n) = vat_pct b.
Proof. destruct b; reflexivity. Qed.
Lemma vat_pct_with_finalized b f t : vat_pct (with_finalized b f t) = vat_pct b.
Proof. destruct b; reflexivity. Qed.
Lemma vat_pct_with_awaiting_photo b x : vat_pct (with_awaiting_photo b x) = vat_pct b.
Proof. destruct b; reflexivity. Qed.
Lemma vat_pct_with_awaiting_manual_rate b x : vat_pct (with_awaiting_manual_rate b x) = vat_pct b.
Proof. destruct b; reflexivity. Qed.
Lemma vat_pct_with_awaiting_fees b x : vat_pct (with_awaiting_fees b x) = vat_pct b.
Proof. destruct b; reflexivity. Qed.
Lemma jpy_to_thb_rate_with_currency b c : jpy_to_thb_rate (with_currency b c) = jpy_to_thb_rate b.
Proof. destruct b; reflexivity. Qed.
Lemma jpy_to_thb_rate_with_fees b s v m : jpy_to_thb_rate (with_fees b s v m) = jpy_to_thb_rate b.
Proof. destruct b; reflexivity. Qed.
Lemma jpy_to_thb_rate_with_items b its : jpy_to_thb_rate (with_items b its) = jpy_to_thb_rate b.
Proof. destruct b; reflexivity. Qed.
Lemma jpy_to_thb_rate_with_members b m : jpy_to_thb_rate (with_members b m) = jpy_to_thb_rate b.
Proof. destruct b; reflexivity. Qed.
Lemma jpy_to_thb_rate_with_next_item_id b n : jpy_to_thb_rate (with_next_item_id b n) = jpy_to_thb_rate b.
Proof. destruct b; reflexivity. Qed.
Lemma jpy_to_thb_rate_with_finalized b f t : jpy_to_thb_rate (with_finalized b f t) = jpy_to_thb_rate b.
Proof. destruct b; reflexivity. Qed.
Lemma jpy_to_thb_rate_with_awaiting_photo b x : jpy_to_thb_rate (with_awaiting_photo b x) = jpy_to_thb_rate b.
Proof. destruct b; reflexivity. Qed.
Lemma jpy_to_thb_rate_with_awaiting_manual_rate b x : jpy_to_thb_rate (with_awaiting_manual_rate b x) = jpy_to_thb_rate b.
Proof. destruct b; reflexivity. Qed.
Lemma jpy_to_thb_rate_with_awaiting_fees b x : jpy_to_thb_rate (with_awaiting_fees b x) = jpy_to_thb_rate b.
Proof. destruct b; reflexivity. Qed.
Lemma awaiting_manual_rate_with_currency b c : awaiting_manual_rate (with_currency b c) = awaiting_manual_rate b.
Proof. destruct b; reflexivity. Qed.
Lemma awaiting_manual_rate_with_rate b x : awaiting_manual_rate (with_rate b x) = awaiting_manual_rate b.
Proof. destruct b; reflexivity. Qed.
Lemma awaiting_manual_rate_with_fees b s v m : awaiting_manual_rate (with_fees b s v m) = awaiting_manual_rate b.
Proof. destruct b; reflexivity. Qed.
Lemma awaiting_manual_rate_with_items b its : awaiting_manual_rate (with_items b its) = awaiting_manual_rate b.
Proof. destruct b; reflexivity. Qed.
Lemma awaiting_manual_rate_with_members b m : awaiting_manual_rate (with_members b m) = awaiting_manual_rate b.
Proof. destruct b; reflexivity. Qed.
Lemma awaiting_manual_rate_with_next_item_id b n : awaiting_manual_rate (with_next_item_id b n) = awaiting_manual_rate b.
Proof. destruct b; reflexivity. Qed.
Lemma awaiting_manual_rate_with_finalized b f t : awaiting_manual_rate (with_finalized b f t) = awaiting_manual_rate b.
Proof. destruct b; reflexivity. Qed.
Lemma awaiting_manual_rate_with_awaiting_photo b x : awaiting_manual_rate (with_awaiting_photo b x) = awaiting_manual_rate b.
Proof. destruct b; reflexivity. Qed.
Lemma awaiting_manual_rate_with_awaiting_fees b x : awaiting_manual_rate (with_awaiting_fees b x) = awaiting_manual_rate b.
Proof. destruct b; reflexivity. Qed.
Lemma members_with_members_own b m : members (with_members b m) = m.
Proof. destruct b; reflexivity. Qed.
Lemma next_item_id_with_next_item_id_own b n : next_item_id (with_next_item_id b n) = n.
Proof. destruct b; reflexivity. Qed.
Lemma is_finalized_with_finalized_own b f t : is_finalized (with_finalized b f t) = f.
Proof. destruct b; reflexivity. Qed.
Lemma fees_mode_with_fees_own b s v m : fees_mode (with_fees b s v m) = m.
Proof. destruct b; reflexivity. Qed.
Lemma service_charge_pct_with_fees_own b s v m : service_charge_pct (with_fees b s v m) = s.
Proof. destruct b; reflexivity. Qed.
Lemma vat_pct_with_fees_own b s v m : vat_pct (with_fees b s v m) = v.
Proof. destruct b; reflexivity. Qed.
Lemma jpy_to_thb_rate_with_rate_own b x : jpy_to_thb_rate (with_rate b x) = x.
Proof. destruct b; reflexivity. Qed.
Lemma awaiting_manual_rate_with_awaiting_manual_rate_own b x : awaiting_manual_rate (with_awaiting_manual_rate b x) = x.
Proof. destruct b; reflexivity. Qed.

End Frame.

Create Rewrite HintDb bill_db.
#[global] Hint Rewrite @items_with_currency @items_with_rate @items_with_fees @items_with_members : bill_db.
#[global] Hint Rewrite @items_with_next_item_id @items_with_finalized @items_with_awaiting_photo @items_with_awaiting_manual_rate : bill_db.
#[global] Hint Rewrite @items_with_awaiting_fees @members_with_currency @members_with_rate @members_with_fees : bill_db.
#[global] Hint Rewrite @members_with_items @members_with_next_item_id @members_with_finalized @members_with_awaiting_photo : bill_db.
#[global] Hint Rewrite @members_with_awaiting_manual_rate @members_with_awaiting_fees @next_item_id_with_currency @next_item_id_with_rate : bill_db.
#[global] Hint Rewrite @next_item_id_with_fees @next_item_id_with_items @next_item_id_with_members @next_item_id_with_finalized : bill_db.
#[global] Hint Rewrite @next_item_id_with_awaiting_photo @next_item_id_with_awaiting_manual_rate @next_item_id_with_awaiting_fees @is_finalized_with_currency : bill_db.
#[global] Hint Rewrite @is_finalized_with_rate @is_finalized_with_fees @is_finalized_with_items @is_finalized_with_members : bill_db.
#[global] Hint Rewrite @is_finalized_with_next_item_id @is_finalized_with_awaiting_photo @is_finalized_with_awaiting_manual_rate @is_finalized_with_awaiting_fees : bill_db.
#[global] Hint Rewrite @creator_id_with_currency @creator_id_with_rate @creator_id_with_fees @creator_id_with_items : bill_db.
#[global] Hint Rewrite @creator_id_with_members @creator_id_with_next_item_id @creator_id_with_finalized @creator_id_with_awaiting_photo : bill_db.
#[global] Hint Rewrite @creator_id_with_awaiting_manual_rate @creator_id_with_awaiting_fees @fees_mode_with_currency @fees_mode_with_rate : bill_db.
#[global] Hint Rewrite @fees_mode_with_items @fees_mode_with_members @fees_mode_with_next_item_id @fees_mode_with_finalized : bill_db.
#[global] Hint Rewrite @fees_mode_with_awaiting_photo @fees_mode_with_awaiting_manual_rate @fees_mode_with_awaiting_fees @service_charge_pct_with_currency : bill_db.
#[global] Hint Rewrite @service_charge_pct_with_rate @service_charge_pct_with_items @service_charge_pct_with_members @service_charge_pct_with_next_item_id : bill_db.
#[global] Hint Rewrite @service_charge_pct_with_finalized @service_charge_pct_with_awaiting_photo @service_charge_pct_with_awaiting_manual_rate @service_charge_pct_with_awaiting_fees : bill_db.
#[global] Hint Rewrite @vat_pct_with_currency @vat_pct_with_rate @vat_pct_with_items @vat_pct_with_members : bill_db.
#[global] Hint Rewrite @vat_pct_with_next_item_id @vat_pct_with_finalized @vat_pct_with_awaiting_photo @vat_pct_with_awaiting_manual_rate : bill_db.
#[global] Hint Rewrite @vat_pct_with_awaiting_fees @jpy_to_thb_rate_with_currency @jpy_to_thb_rate_with_fees @jpy_to_thb_rate_with_items : bill_db.
#[global] Hint Rewrite @jpy_to_thb_rate_with_members @jpy_to_thb_rate_with_next_item_id @jpy_to_thb_rate_with_finalized @jpy_to_thb_rate_with_awaiting_photo : bill_db.
#[global] Hint Rewrite @jpy_to_thb_rate_with_awaiting_manual_rate @jpy_to_thb_rate_with_awaiting_fees @awaiting_manual_rate_with_currency @awaiting_manual_rate_with_rate : bill_db.
#[global] Hint Rewrite @awaiting_manual_rate_with_fees @awaiting_manual_rate_with_items @awaiting_manual_rate_with_members @awaiting_manual_rate_with_next_item_id : bill_db.
#[global] Hint Rewrite @awaiting_manual_rate_with_finalized @awaiting_manual_rate_with_awaiting_photo @awaiting_manual_rate_with_awaiting_fees @items_with_items : bill_db.
#[global] Hint Rewrite @members_with_members_own @next_item_id_with_next_item_id_own @is_finalized_with_finalized_own @fees_mode_with_fees_own : bill_db.
#[global] Hint Rewrite @service_charge_pct_with_fees_own @vat_pct_with_fees_own @jpy_to_thb_rate_with_rate_own @awaiting_manual_rate_with_awaiting_manual_rate_own : bill_db.

(** ** The currency field *)

Lemma currency_add_item {A} (b : bill A) n p :
  currency (fst (add_item_to_bill b n p)) = currency b.
Proof. unfold add_item_to_bill; cbn [fst]. autorewrite with currency_db. reflexivity. Qed.

Lemma currency_with_item_claims {A} (b : bill A) id cs :
  currency (with_item_claims b id cs) = currency b.
Proof. unfold with_item_claims. autorewrite with currency_db. reflexivity. Qed.

#[global] Hint Rewrite @currency_add_item @currency_with_item_claims : currency_db.

Lemma currency_add_items {A} (found : list (string * A)) (b : bill A) :
  currency (fold_left (fun acc np => fst (add_item_to_bill acc (fst np) (snd np))) found b)
  = currency b.
Proof.
  revert b; induction found as [|np found IH]; intro b; cbn [fold_left]; [reflexivity|].
  rewrite IH. apply currency_add_item.
Qed.

Lemma photo_handler_currency {A} `{PyNum A} (b b' : bill A) found r :
  photo_handler b found = Save b' r -> currency b' = currency b.
Proof.
  unfold photo_handler. intro Hrun.
  assert (Hb' : b' = match found with
                     | [] => with_awaiting_photo b false
                     | _ => fold_left (fun acc np => fst (add_item_to_bill acc (fst np) (snd np)))
                              found (with_awaiting_photo b false)
                     end) by (destruct found; congruence).
  subst b'. destruct found; cbv beta iota; [|rewrite currency_add_items];
    autorewrite with currency_db; reflexivity.
Qed.

(** Case analysis of a handler run that saved a bill. *)
Ltac split_save :=
  repeat match goal with
  | H : Keep _ = Save _ _ |- _ => discriminate H
  | H : Delete _ = Save _ _ |- _ => discriminate H
  | H : Save _ _ = Save _ _ |- _ => injection H as <- <-
  | H : context [match ?x with _ => _ end] |- _ => destruct x eqn:?
  | |- context [match ?x with _ => _ end] => destruct x eqn:?
  end.

(** Claim C3: every handler other than the currency button leaves the bill's
    currency as it was; the currency button, pressed by the creator,
    overwrites the currency with the chosen one whether or not one was set
    before (pressed by anyone else it changes nothing). *)
Theorem currency_written_only_by_choice {A} `{PyNum A} (b : bill A) (u : user) :
  (forall e b' r, (forall c, e <> EvCallback (CbCurrency c)) ->
                  handle b u e = Save b' r -> currency b' = currency b) /\
  (forall c, handle b u (EvCallback (CbCurrency c)) =
             if Z.eqb (uid u) (creator_id b) then Save (with_currency b (Some c)) Ok
             else Keep NotCreator).
Proof.
  split.
  - intros e b' r Hnot Hrun.
    destruct e; cbn [handle] in Hrun;
      [..| eapply photo_handler_currency; exact Hrun |];
      unfold cmd_join, cmd_additem, cmd_pick, cmd_unpick, cmd_assign, cmd_resetpicks,
        cmd_setfees, cmd_done, cmd_cancel, text_handler in Hrun.
    all: try (destruct cb; [ exfalso; eapply Hnot; reflexivity | .. ];
              unfold callback_handler in Hrun).
    all: split_save; autorewrite with currency_db; reflexivity.
  - intro c. cbn [handle callback_handler].
    destruct (Z.eqb (uid u) (creator_id b)); reflexivity.
Qed.

Definition demo_bill_thb : bill Q :=
  with_currency (new_bill_doc 10 1 "@ann" 0) (Some "THB"%string).

Lemma currency_rechosen :
  exists b' r,
    handle demo_bill_thb (mk_user 1 (Some "ann"%string) None None)
      (EvCallback (CbCurrency "JPY"%string)) = Save b' r /\
    currency b' <> currency demo_bill_thb.
Proof.
  eexists; eexists; split; [vm_compute; reflexivity|].
  vm_compute. discriminate.
Qed.

(** ** The pick button *)

Section Claims.
Context {A : Type}.

Lemma get_item_with_members (b : bill A) m id : get_item (with_members b m) id = get_item b id.
Proof. unfold get_item. rewrite items_with_members. reflexivity. Qed.

Lemma find_update_item id cs (its : list (item A)) :
  find (fun it => Z.eqb (item_id it) id) (update_item id (set_claims cs) its) =
  option_map (set_claims cs) (find (fun it => Z.eqb (item_id it) id) its).
Proof.
  induction its as [|it r IH]; cbn [update_item find]; [reflexivity|].
  destruct (Z.eqb (item_id it) id) eqn:E; cbn [find].
  - unfold set_claims at 1; cbn [item_id]. rewrite E. reflexivity.
  - rewrite E. exact IH.
Qed.

Lemma get_item_with_item_claims (b : bill A) id cs it :
  get_item b id = Some it -> get_item (with_item_claims b id cs) id = Some (set_claims cs it).
Proof.
  unfold get_item, with_item_claims. rewrite items_with_items, find_update_item.
  intros ->. reflexivity.
Qed.

Lemma claimed_by_set_claims cs (it : item A) : claimed_by (set_claims cs it) = cs.
Proof. reflexivity. Qed.

End Claims.

Lemma has_claim_false u cs : ~ In u (map claim_user_id cs) -> has_claim u cs = false.
Proof.
  induction cs as [|c r IH]; cbn; [reflexivity|]. intro Hn.
  destruct (Z.eqb_spec (claim_user_id c) u); [tauto|]. apply IH. tauto.
Qed.

Lemma has_claim_true u cs : has_claim u cs = true -> In u (map claim_user_id cs).
Proof.
  induction cs as [|c r IH]; cbn; [discriminate|].
  destruct (Z.eqb_spec (claim_user_id c) u); [auto|]. intro H; right; auto.
Qed.

Lemma without_user_absent u cs : has_claim u cs = false -> without_user u cs = cs.
Proof.
  induction cs as [|c r IH]; cbn; [reflexivity|].
  destruct (Z.eqb (claim_user_id c) u); cbn; [discriminate|]. intro H; f_equal; auto.
Qed.

Lemma rename_absent u n cs : has_claim u cs = false -> map (rename_claim u n) cs = cs.
Proof.
  induction cs as [|c r IH]; cbn; [reflexivity|]. unfold rename_claim at 1.
  destruct (Z.eqb (claim_user_id c) u); cbn; [discriminate|]. intro H; f_equal; auto.
Qed.

Lemma has_claim_without u cs : has_claim u (without_user u cs) = false.
Proof.
  induction cs as [|c r IH]; cbn; [reflexivity|].
  destruct (Z.eqb (claim_user_id c) u) eqn:E; cbn; [exact IH|]. rewrite E. exact IH.
Qed.

Lemma has_claim_app_new u n cs : has_claim u (cs ++ [mk_claim u n]) = true.
Proof.
  unfold has_claim. rewrite existsb_app. cbn. rewrite Z.eqb_refl, orb_true_r. reflexivity.
Qed.

Lemma without_user_cons u c r :
  without_user u (c :: r) =
  if Z.eqb (claim_user_id c) u then without_user u r else c :: without_user u r.
Proof. unfold without_user; cbn. destruct (Z.eqb (claim_user_id c) u); reflexivity. Qed.

Lemma without_user_rename u n cs :
  NoDup (map claim_user_id cs) -> has_claim u cs = true ->
  Permutation (without_user u cs ++ [mk_claim u n]) (map (rename_claim u n) cs).
Proof.
  induction cs as [|c r IH]; [discriminate|].
  intros Hnd Hc. inversion Hnd as [|? ? Hnotin Hnd']; subst.
  rewrite without_user_cons. cbn [map]. unfold rename_claim at 1.
  unfold has_claim in Hc; cbn [existsb] in Hc; fold (has_claim u r) in Hc.
  destruct (Z.eqb_spec (claim_user_id c) u) as [Heq|Hne]; cbn [negb orb] in Hc |- *.
  - subst u. pose proof (has_claim_false _ _ Hnotin) as Hr.
    rewrite without_user_absent, rename_absent by exact Hr.
    apply Permutation_sym, Permutation_cons_append.
  - apply perm_skip, IH; assumption.
Qed.

(** Claim C5: two taps on an item's pick button by the same member give back
    the item's claim list exactly when the member held no claim on it; when
    the member held one, the claims come back up to order, with the member's
    claim re-made under the member's current display name (so the claiming
    member ids always come back, and the claims themselves when that name is
    the one stored). *)
Theorem pick_twice_claims {A} `{PyNum A} (b : bill A) (u : user) (id : Z) (it : item A)
  (Hitem : get_item b id = Some it)
  (Hnodup : NoDup (map claim_user_id (claimed_by it))) :
  exists b2 it2,
    pick_twice b u id = Save b2 Ok /\ get_item b2 id = Some it2 /\
    (has_claim (uid u) (claimed_by it) = false -> claimed_by it2 = claimed_by it) /\
    Permutation (claimed_by it2)
                (map (rename_claim (uid u) (get_display_name u)) (claimed_by it)) /\
    Permutation (map claim_user_id (claimed_by it2)) (map claim_user_id (claimed_by it)).
Proof.
  set (n := get_display_name u).
  set (b1 := if dict_has (uid u) (members b) then b
             else with_members b (dict_set (uid u) (get_display_name u) (members b))).
  assert (H1 : get_item b1 id = Some it).
  { unfold b1; destruct (dict_has (uid u) (members b));
      [|rewrite get_item_with_members]; exact Hitem. }
  assert (Hstep : forall b0 : bill A, get_item b0 id = Some it ->
    callback_handler b0 u (CbPick id) =
    Save (with_item_claims
            (if dict_has (uid u) (members b0) then b0
             else with_members b0 (dict_set (uid u) (get_display_name u) (members b0))) id
            (if has_claim (uid u) (claimed_by it)
             then without_user (uid u) (claimed_by it)
             else claimed_by it ++ [mk_claim (uid u) n])) Ok).
  { intros b0 Hb0. cbn [callback_handler]. rewrite Hb0.
    destruct (has_claim (uid u) (claimed_by it)); reflexivity. }
  unfold pick_twice. rewrite (Hstep b Hitem).
  set (cs1 := if has_claim (uid u) (claimed_by it)
              then without_user (uid u) (claimed_by it)
              else claimed_by it ++ [mk_claim (uid u) n]).
  set (bA := with_item_claims (if dict_has (uid u) (members b) then b
             else with_members b (dict_set (uid u) (get_display_name u) (members b))) id cs1).
  assert (HA : get_item bA id = Some (set_claims cs1 it))
    by (apply get_item_with_item_claims; exact H1).
  cbn [callback_handler]. rewrite HA, claimed_by_set_claims.
  set (bB := if dict_has (uid u) (members bA) then bA
             else with_members bA (dict_set (uid u) (get_display_name u) (members bA))).
  assert (HB : get_item bB id = Some (set_claims cs1 it)).
  { unfold bB; destruct (dict_has (uid u) (members bA));
      [|rewrite get_item_with_members]; exact HA. }
  destruct (has_claim (uid u) (claimed_by it)) eqn:Hc.
  - (* the member held a claim: removed, then re-made *)
    unfold cs1; cbv beta iota. rewrite has_claim_without.
    eexists; eexists; split; [reflexivity|].
    split; [apply get_item_with_item_claims; exact HB|].
    rewrite claimed_by_set_claims.
    split; [discriminate|].
    assert (HP := without_user_rename (uid u) n _ Hnodup Hc).
    split; [exact HP|].
    eapply Permutation_trans; [apply Permutation_map; exact HP|]. rewrite map_map.
    apply Permutation_refl', map_ext. intro c. unfold rename_claim.
    destruct (Z.eqb_spec (claim_user_id c) (uid u)); auto.
  - (* the member held none: added, then removed *)
    unfold cs1; cbv beta iota. rewrite has_claim_app_new.
    eexists; eexists; split; [reflexivity|].
    split; [apply get_item_with_item_claims; exact HB|].
    rewrite claimed_by_set_claims.
    assert (E : without_user (uid u) (claimed_by it ++ [mk_claim (uid u) n]) = claimed_by it).
    { unfold without_user. rewrite filter_app. cbn. rewrite Z.eqb_refl. cbn.
      rewrite app_nil_r. exact (without_user_absent _ _ Hc). }
    rewrite E, (rename_absent _ _ _ Hc).
    split; [reflexivity|]. split; apply Permutation_refl.
Qed.

Definition demo_bill_pick : bill Q :=
  with_members
    (with_items (new_bill_doc 10 1 "@ann" 0)
       [mk_item 1 "Pad Thai" (150#1) [mk_claim 2 "@bob"; mk_claim 1 "@ann"]])
    [(1, "@ann"); (2, "@bob")]%string.

Definition bob_renamed : user := mk_user 2 (Some "robert"%string) None None.

Lemma pick_twice_claims_witness :
  get_item demo_bill_pick 1 = Some (mk_item 1 "Pad Thai" (150#1) [mk_claim 2 "@bob"; mk_claim 1 "@ann"]) /\
  exists b2 it2,
    pick_twice demo_bill_pick bob_renamed 1 = Save b2 Ok /\ get_item b2 1 = Some it2 /\
    (has_claim 2 [mk_claim 2 "@bob"; mk_claim 1 "@ann"] = false ->
     claimed_by it2 = [mk_claim 2 "@bob"; mk_claim 1 "@ann"]) /\
    Permutation (claimed_by it2)
      (map (rename_claim 2 (get_display_name bob_renamed)) [mk_claim 2 "@bob"; mk_claim 1 "@ann"]) /\
    Permutation (map claim_user_id (claimed_by it2))
      (map claim_user_id [mk_claim 2 "@bob"; mk_claim 1 "@ann"]).
Proof.
  split; [reflexivity|].
  apply (pick_twice_claims demo_bill_pick bob_renamed 1
           (mk_item 1 "Pad Thai" (150#1) [mk_claim 2 "@bob"; mk_claim 1 "@ann"]));
    [reflexivity|].
  cbn. constructor; [intros [E|[]]; discriminate E | constructor; [intros []|constructor]].
Defined.

Lemma pick_twice_renames_claim :
  exists b2,
    pick_twice demo_bill_pick bob_renamed 1 = Save b2 Ok /\
    option_map claimed_by (get_item demo_bill_pick 1) =
      Some [mk_claim 2 "@bob"; mk_claim 1 "@ann"] /\
    option_map claimed_by (get_item b2 1) =
      Some [mk_claim 1 "@ann"; mk_claim 2 "@robert"] /\
    ~ In (mk_claim 2 "@bob") [mk_claim 1 "@ann"; mk_claim 2 "@robert"].
Proof.
  eexists; split; [vm_compute; reflexivity|].
  split; [reflexivity|]. split; [vm_compute; reflexivity|].
  intros [E|[E|[]]]; inversion E.
Qed.

(** ** /additem and non-finite prices *)

Definition demo_bill_float : bill PrimFloat.float :=
  with_currency (new_bill_doc 10 1 "@ann" 0) (Some "THB"%string).

(** Claim C4: /additem is meant to take only a positive finite price, but
    [float()] reads "nan" and "inf", and the guard [price <= 0] is false on
    both, so the item is appended with a NaN or an infinite price. *)
Theorem additem_accepts_non_finite :
  exists b1 b2,
    cmd_additem demo_bill_float (list_ascii_of_string "Soup nan") = Save b1 Ok /\
    option_map (fun it => PrimFloat.is_nan (price it)) (get_item b1 1) = Some true /\
    cmd_additem demo_bill_float (list_ascii_of_string "Soup inf") = Save b2 Ok /\
    option_map (fun it => PrimFloat.is_infinity (price it)) (get_item b2 1) = Some true.
Proof.
  eexists; eexists.
  split; [vm_compute; reflexivity|]. split; [vm_compute; reflexivity|].
  split; [vm_compute; reflexivity|]. vm_compute; reflexivity.
Qed.

(** ** Exact arithmetic: sums *)

Ltac qsimpl := cbn [num_add num_sub num_mul num_div num_of_Z num_eqb num_leb PyNum_Q] in *.

Section Sums.
Open Scope Q_scope.
Context {T : Type}.
Implicit Types (g h : T -> Q) (l : list T).

Lemma fold_left_sumQ (st : Q -> T -> Q) g l a :
  (forall s x, st s x == s + g x) -> fold_left st l a == a + sumQ g l.
Proof.
  intro Hst. revert a; induction l as [|x l IH]; intro a; cbn [fold_left sumQ fold_right].
  - ring.
  - rewrite IH, Hst. fold (sumQ g l). ring.
Qed.

Lemma sumQ_ext g h l : (forall x, In x l -> g x == h x) -> sumQ g l == sumQ h l.
Proof.
  induction l as [|x l IH]; intro E; cbn [sumQ fold_right]; [reflexivity|].
  fold (sumQ g l) (sumQ h l). rewrite E by (left; reflexivity).
  rewrite IH by (intros y Hy; apply E; right; exact Hy). reflexivity.
Qed.

Lemma sumQ_plus g h l : sumQ (fun x => g x + h x) l == sumQ g l + sumQ h l.
Proof.
  induction l as [|x l IH]; cbn [sumQ fold_right]; [ring|].
  fold (sumQ g l) (sumQ h l) (sumQ (fun x => g x + h x) l). rewrite IH. ring.
Qed.

Lemma sumQ_scale g l k : sumQ (fun x => g x * k) l == sumQ g l * k.
Proof.
  induction l as [|x l IH]; cbn [sumQ fold_right]; [ring|].
  fold (sumQ g l) (sumQ (fun x => g x * k) l). rewrite IH. ring.
Qed.

Lemma sumQ_zero l : sumQ (fun _ => 0) l == 0.
Proof.
  induction l as [|x l IH]; cbn [sumQ fold_right]; [reflexivity|].
  fold (sumQ (fun _ : T => 0) l). rewrite IH. reflexivity.
Qed.

Lemma sumQ_le g h l : (forall x, In x l -> g x <= h x) -> sumQ g l <= sumQ h l.
Proof.
  induction l as [|x l IH]; intro E; cbn [sumQ fold_right]; [apply Qle_refl|].
  fold (sumQ g l) (sumQ h l). apply Qplus_le_compat.
  - apply E; left; reflexivity.
  - apply IH; intros y Hy; apply E; right; exact Hy.
Qed.

Lemma sumQ_indicator (p : T -> bool) (c : Q) l :
  sumQ (fun x => if p x then c else 0) l == inject_Z (Z.of_nat (List.length (filter p l))) * c.
Proof.
  induction l as [|x l IH]; cbn [sumQ fold_right filter]; [reflexivity|].
  fold (sumQ (fun x => if p x then c else 0) l). rewrite IH.
  destruct (p x); cbn [List.length]; [|ring].
  rewrite Nat2Z.inj_succ. unfold Z.succ. rewrite inject_Z_plus. ring.
Qed.

End Sums.

Lemma sumQ_swap {T U} (f : T -> U -> Q) (L : list T) (I : list U) :
  (sumQ (fun u => sumQ (fun i => f u i) I) L == sumQ (fun i => sumQ (fun u => f u i) L) I)%Q.
Proof.
  induction L as [|u L IH]; cbn [sumQ fold_right].
  - symmetry. apply (sumQ_zero I).
  - fold (sumQ (fun u => sumQ (fun i => f u i) I) L). rewrite IH.
    fold (sumQ (fun i => f u i) I).
    rewrite <- (sumQ_plus (fun i => f u i) (fun i => sumQ (fun u => f u i) L) I).
    reflexivity.
Qed.

(** ** Exact arithmetic: the fee engine *)

Section FeesQ.
Open Scope Q_scope.
Implicit Types (b : bill Q).

Lemma mode_total_scale b x : mode_total b x == x * mode_total b (inject_Z 1).
Proof.
  unfold mode_total, grand_formula. destruct (mode_of (fees_mode b)) as [[| |]|];
    qsimpl; ring.
Qed.

Lemma mode_total_zero b : mode_total b 0 == 0.
Proof. rewrite mode_total_scale. ring. Qed.

Lemma mode_total_plus b x y : mode_total b (x + y) == mode_total b x + mode_total b y.
Proof.
  rewrite (mode_total_scale b (x + y)), (mode_total_scale b x), (mode_total_scale b y). ring.
Qed.

Lemma mode_total_compat b x y : x == y -> mode_total b x == mode_total b y.
Proof. intro E. rewrite (mode_total_scale b x), (mode_total_scale b y), E. reflexivity. Qed.

Lemma payable_zero_subtotal b u :
  Qeq_bool (bill_total b) (inject_Z 0) = true -> payable b u = inject_Z 0.
Proof. intro E. unfold payable, person_fee_breakdown. qsimpl. rewrite E. reflexivity. Qed.

(** Every member's payable is the mode's formula at the member's subtotal. *)
Lemma payable_mode_total b u :
  Qeq_bool (bill_total b) (inject_Z 0) = false ->
  payable b u == mode_total b (person_total b u).
Proof.
  intro E. unfold payable, person_fee_breakdown, mode_total, mode_of, grand_formula.
  qsimpl. rewrite E.
  generalize (or0 (service_charge_pct b)) (or0 (vat_pct b)) (person_total b u).
  intros sc vat p.
  destruct (mode_is (fees_mode b) "both_inclusive"); [reflexivity|].
  destruct (mode_is (fees_mode b) "sc_exclusive_vat_inclusive"); [reflexivity|].
  destruct (mode_is (fees_mode b) "both_exclusive"); qsimpl; [|reflexivity].
  field.
Qed.

End FeesQ.

(** Claim C10: in exact arithmetic the proportional total
    [person_grand_total] and the fourth component of [person_fee_breakdown]
    are equal, in every fee mode, and both are zero when the subtotal is zero.
    (In binary floating point they are computed along different roundings.) *)
Theorem person_totals_agree (b : bill Q) (u : Z) :
  (person_grand_total b u == payable b u)%Q.
Proof.
  unfold person_grand_total. qsimpl.
  destruct (Qeq_bool (bill_total b) (inject_Z 0)) eqn:E.
  - rewrite payable_zero_subtotal by exact E. reflexivity.
  - rewrite payable_mode_total by exact E.
    assert (Hs : ~ bill_total b == 0).
    { intro Z0. apply Qeq_bool_iff in Z0. unfold inject_Z in E. congruence. }
    rewrite bill_grand_total_formula.
    rewrite (mode_total_scale b (bill_total b)), (mode_total_scale b (person_total b u)).
    field. exact Hs.
Qed.

Definition demo_bill_fp : bill PrimFloat.float :=
  with_fees
    (with_items (new_bill_doc 10 1 "@ann" 0)
       [mk_item 1 "Som Tam" (num_div (num_of_Z 1) (num_of_Z 10)) [mk_claim 1 "@ann"];
        mk_item 2 "Khao Pad" (num_div (num_of_Z 2) (num_of_Z 10)) [mk_claim 2 "@bob"]])
    (Some (num_of_Z 10)) (Some (num_of_Z 7)) (Some "both_exclusive"%string).

(** In CPython: [0.11770000000000003] against [0.1177]. *)
Lemma person_totals_differ_in_floats :
  person_grand_total demo_bill_fp 1 <> payable demo_bill_fp 1.
Proof.
  intro E.
  assert (Hneq : PrimFloat.eqb (person_grand_total demo_bill_fp 1) (payable demo_bill_fp 1) = false)
    by (vm_compute; reflexivity).
  rewrite E in Hneq. vm_compute in Hneq. discriminate Hneq.
Qed.

(** ** Conservation *)

Lemma has_claim_in u cs : In u (map claim_user_id cs) -> has_claim u cs = true.
Proof.
  intro Hin. apply in_map_iff in Hin as [c [<- Hc]].
  apply existsb_exists. exists c. split; [exact Hc | apply Z.eqb_refl].
Qed.

Lemma count_claimants (L : list Z) (cs : list claim) :
  NoDup L -> (forall c, In c cs -> In (claim_user_id c) L) ->
  NoDup (map claim_user_id cs) ->
  List.length (filter (fun u => has_claim u cs) L) = List.length cs.
Proof.
  intros HL Hcov Hcs. rewrite <- (length_map claim_user_id cs).
  apply Permutation_length, NoDup_Permutation; [apply NoDup_filter; exact HL | exact Hcs |].
  intro x. rewrite filter_In. split.
  - intros [_ Hx]. apply has_claim_true. exact Hx.
  - intro Hx. split; [|apply has_claim_in; exact Hx].
    apply in_map_iff in Hx as [c [<- Hc]]. apply Hcov. exact Hc.
Qed.

Section ConservationQ.
Open Scope Q_scope.
Implicit Types (b : bill Q).

Lemma person_total_sum b u :
  person_total b u ==
  sumQ (fun it => if has_claim u (claimed_by it) then item_per_person it else 0) (items b).
Proof.
  unfold person_total. qsimpl.
  rewrite (fold_left_sumQ _ (fun it => if has_claim u (claimed_by it) then item_per_person it else 0)).
  - unfold inject_Z. ring.
  - intros s it. destruct (has_claim u (claimed_by it)); ring.
Qed.

Lemma bill_total_sum b : bill_total b == sumQ price (items b).
Proof.
  unfold bill_total. qsimpl. rewrite (fold_left_sumQ _ price) by (intros; reflexivity).
  unfold inject_Z. ring.
Qed.

Lemma unclaimed_sum b :
  unclaimed_subtotal b ==
  sumQ (fun it => match claimed_by it with [] => price it | _ => 0 end) (items b).
Proof.
  unfold unclaimed_subtotal. qsimpl.
  rewrite (fold_left_sumQ _ (fun it => match claimed_by it with [] => price it | _ => 0 end)).
  - unfold inject_Z. ring.
  - intros s it. destruct (claimed_by it); qsimpl; ring.
Qed.

(** an item's price is split among its claimants, or left unclaimed whole *)
Lemma item_split (it : item Q) :
  inject_Z (Z.of_nat (List.length (claimed_by it))) * item_per_person it
  + match claimed_by it with [] => price it | _ => 0 end == price it.
Proof.
  unfold item_per_person. qsimpl.
  destruct (claimed_by it) as [|c r]; cbn [List.length Nat.ltb Nat.leb].
  - unfold inject_Z. ring.
  - field. unfold Qeq, inject_Z; cbn [Qnum Qden]. lia.
Qed.

Lemma split_subtotal b (L : list Z)
  (HL : NoDup L)
  (Hcover : forall it c, In it (items b) -> In c (claimed_by it) -> In (claim_user_id c) L)
  (Hnodup : forall it, In it (items b) -> NoDup (map claim_user_id (claimed_by it))) :
  sumQ (person_total b) L + unclaimed_subtotal b == bill_total b.
Proof.
  rewrite (sumQ_ext _ _ L (fun u _ => person_total_sum b u)).
  rewrite sumQ_swap, unclaimed_sum, bill_total_sum, <- sumQ_plus.
  apply sumQ_ext. intros it Hit.
  rewrite (sumQ_indicator (fun u => has_claim u (claimed_by it)) (item_per_person it) L).
  rewrite count_claimants; [apply item_split | exact HL | | apply Hnodup; exact Hit].
  intros c Hc. apply (Hcover it); assumption.
Qed.

Lemma unclaimed_zero b (Hprice : forall it, In it (items b) -> 0 <= price it) :
  bill_total b == 0 -> unclaimed_subtotal b == 0.
Proof.
  intro Ht. rewrite unclaimed_sum. apply Qle_antisym.
  - rewrite <- Ht, bill_total_sum. apply sumQ_le. intros it Hit.
    destruct (claimed_by it); [apply Qle_refl | apply Hprice; exact Hit].
  - rewrite <- (sumQ_zero (items b)). apply sumQ_le. intros it Hit.
    destruct (claimed_by it); [apply Hprice; exact Hit | apply Qle_refl].
Qed.

End ConservationQ.

(** Claim C1: in exact arithmetic, for a bill whose prices are non-negative
    and whose claim lists name each member at most once, and any duplicate-free
    list [L] of members containing every claimant: the payables of the members
    of [L] holding a claim, plus the unclaimed items' prices carried through
    the mode's grand-total formula, add up to the grand total.  For
    AllInclusive and unset fees that formula is the identity, so there the
    raw unclaimed prices are added. *)
Theorem conservation_with_fees (b : bill Q) (L : list Z)
  (HL : NoDup L)
  (Hcover : forall it c, In it (items b) -> In c (claimed_by it) -> In (claim_user_id c) L)
  (Hnodup : forall it, In it (items b) -> NoDup (map claim_user_id (claimed_by it)))
  (Hprice : forall it, In it (items b) -> (0 <= price it)%Q) :
  (conservation_lhs_fees b L == bill_grand_total b)%Q.
Proof.
  unfold conservation_lhs_fees. qsimpl. rewrite bill_grand_total_formula.
  rewrite (fold_left_sumQ _ (payable b)) by (intros; reflexivity).
  set (L' := filter (holds_claim b) L).
  destruct (Qeq_bool (bill_total b) (inject_Z 0)) eqn:E.
  - assert (Ht : (bill_total b == 0)%Q) by (apply Qeq_bool_iff; exact E).
    rewrite (sumQ_ext _ (fun _ => 0%Q) L') by (intros u _; rewrite payable_zero_subtotal by exact E; reflexivity).
    rewrite sumQ_zero.
    rewrite (mode_total_compat b _ _ (unclaimed_zero b Hprice Ht)), (mode_total_compat b _ _ Ht).
    rewrite mode_total_zero. ring.
  - rewrite (sumQ_ext _ (fun u => person_total b u * mode_total b (inject_Z 1))%Q L').
    2:{ intros u _. rewrite payable_mode_total by exact E. apply mode_total_scale. }
    rewrite sumQ_scale, (mode_total_scale b (unclaimed_subtotal b)),
      (mode_total_scale b (bill_total b)).
    rewrite <- (split_subtotal b L'); [ring | apply NoDup_filter; exact HL | | exact Hnodup].
    intros it c Hit Hc. unfold L'. apply filter_In. split; [apply (Hcover it c Hit Hc)|].
    apply existsb_exists. exists it. split; [exact Hit|].
    apply has_claim_in, in_map. exact Hc.
Qed.

Definition demo_bill_split : bill Q :=
  with_fees
    (with_members
       (with_items (new_bill_doc 10 1 "@ann" 0)
          [mk_item 1 "Pad Thai" (300#1) [mk_claim 1 "@ann"];
           mk_item 2 "Tom Yum" (200#1) [mk_claim 1 "@ann"; mk_claim 2 "@bob"];
           mk_item 3 "Mango Rice" (120#1) []])
       [(1, "@ann"); (2, "@bob"); (3, "@cat")]%string)
    (Some (10#1)) (Some (7#1)) (Some "both_exclusive"%string).

Lemma conservation_with_fees_witness :
  (conservation_lhs_fees demo_bill_split (map fst (members demo_bill_split))
   == bill_grand_total demo_bill_split)%Q.
Proof.
  apply conservation_with_fees.
  - cbn. repeat constructor; cbn; intuition discriminate.
  - cbn. intros it c Hit Hc.
    repeat (destruct Hit as [<-|Hit]; [cbn in Hc; intuition (subst; cbn; intuition)|]).
    destruct Hit.
  - cbn. intros it Hit.
    repeat (destruct Hit as [<-|Hit]; [cbn; repeat constructor; cbn; intuition discriminate|]).
    destruct Hit.
  - cbn. intros it Hit.
    repeat (destruct Hit as [<-|Hit]; [cbn; unfold Qle; cbn; lia|]).
    destruct Hit.
Defined.

Definition demo_bill_unclaimed : bill Q :=
  with_fees
    (with_items (new_bill_doc 10 1 "@ann" 0) [mk_item 1 "Pad Thai" (100#1) []])
    (Some (10#1)) (Some (7#1)) (Some "both_exclusive"%string).

(** No claimant, one unclaimed item of 100: the claim's sum is 100, the grand
    total 117.7. *)
Lemma conservation_raw_unclaimed_fails :
  ~ (Qabs (conservation_lhs demo_bill_unclaimed (map fst (members demo_bill_unclaimed))
           - bill_grand_total demo_bill_unclaimed)
     <= (1#1000000) * Qabs (bill_grand_total demo_bill_unclaimed))%Q.
Proof. unfold Qle. vm_compute. intro H. apply H. reflexivity. Qed.

(** ** What the handlers keep *)

Section Shapes.
Context {A : Type}.
Implicit Types (b : bill A).

Lemma items_with_item_claims b id cs :
  items (with_item_claims b id cs) = update_item id (set_claims cs) (items b).
Proof. unfold with_item_claims. apply items_with_items. Qed.

Lemma members_with_item_claims b id cs : members (with_item_claims b id cs) = members b.
Proof. unfold with_item_claims. apply members_with_items. Qed.

Lemma next_item_id_with_item_claims b id cs :
  next_item_id (with_item_claims b id cs) = next_item_id b.
Proof. unfold with_item_claims. apply next_item_id_with_items. Qed.

Lemma is_finalized_with_item_claims b id cs :
  is_finalized (with_item_claims b id cs) = is_finalized b.
Proof. unfold with_item_claims. apply is_finalized_with_items. Qed.

Lemma items_add_item b n p :
  items (fst (add_item_to_bill b n p)) = items b ++ [mk_item (next_item_id b) n p []].
Proof. unfold add_item_to_bill; cbn [fst]. autorewrite with bill_db. reflexivity. Qed.

Lemma members_add_item b n p : members (fst (add_item_to_bill b n p)) = members b.
Proof. unfold add_item_to_bill; cbn [fst]. autorewrite with bill_db. reflexivity. Qed.

Lemma next_item_id_add_item b n p :
  next_item_id (fst (add_item_to_bill b n p)) = next_item_id b + 1.
Proof. unfold add_item_to_bill; cbn [fst]. autorewrite with bill_db. reflexivity. Qed.

Lemma is_finalized_add_item b n p : is_finalized (fst (add_item_to_bill b n p)) = is_finalized b.
Proof. unfold add_item_to_bill; cbn [fst]. autorewrite with bill_db. reflexivity. Qed.

Lemma creator_id_add_item b n p : creator_id (fst (add_item_to_bill b n p)) = creator_id b.
Proof. unfold add_item_to_bill; cbn [fst]. autorewrite with bill_db. reflexivity. Qed.

End Shapes.

#[global] Hint Rewrite @items_with_item_claims @members_with_item_claims : bill_db.
#[global] Hint Rewrite @next_item_id_with_item_claims @is_finalized_with_item_claims : bill_db.
#[global] Hint Rewrite @items_add_item @members_add_item @next_item_id_add_item : bill_db.
#[global] Hint Rewrite @is_finalized_add_item @creator_id_add_item : bill_db.

Section AddAll.
Context {A : Type}.
Implicit Types (b : bill A).

Lemma add_all_ind (P : bill A -> Prop) (Q : string * A -> Prop) found b :
  (forall b np, Q np -> P b -> P (fst (add_item_to_bill b (fst np) (snd np)))) ->
  Forall Q found -> P b -> P (add_all found b).
Proof.
  intros Hstep Hf. revert b. induction Hf as [|np found Hnp Hf IH]; intros b Hb; cbn [fold_left];
    [exact Hb|]. apply IH, Hstep; assumption.
Qed.

Lemma items_add_all found b :
  items (add_all found b) = items b ++ numbered_items (next_item_id b) found.
Proof.
  revert b; induction found as [|[nm p] found IH]; intro b; cbn [fold_left numbered_items].
  - rewrite app_nil_r. reflexivity.
  - rewrite IH. autorewrite with bill_db. cbn [fst snd]. rewrite <- app_assoc. reflexivity.
Qed.

Lemma next_item_id_add_all found b :
  next_item_id (add_all found b) = next_item_id b + Z.of_nat (List.length found).
Proof.
  revert b; induction found as [|np found IH]; intro b; cbn [fold_left List.length].
  - lia.
  - rewrite IH. autorewrite with bill_db. lia.
Qed.

Lemma members_add_all found b : members (add_all found b) = members b.
Proof.
  revert b; induction found as [|np found IH]; intro b; cbn [fold_left]; [reflexivity|].
  rewrite IH. apply members_add_item.
Qed.

Lemma is_finalized_add_all found b : is_finalized (add_all found b) = is_finalized b.
Proof.
  revert b; induction found as [|np found IH]; intro b; cbn [fold_left]; [reflexivity|].
  rewrite IH. apply is_finalized_add_item.
Qed.

Lemma photo_handler_saves `{PyNum A} b found b' r :
  photo_handler b found = Save b' r -> b' = add_all found (with_awaiting_photo b false).
Proof. unfold photo_handler. destruct found; cbn [fold_left]; congruence. Qed.

End AddAll.

Section ItemLists.
Context {A : Type}.
Implicit Types (its : list (item A)).

Lemma map_update_item {B} (g : item A -> B) id cs its :
  (forall it, g (set_claims cs it) = g it) ->
  map g (update_item id (set_claims cs) its) = map g its.
Proof.
  intro Hg. induction its as [|it r IH]; cbn [update_item map]; [reflexivity|].
  destruct (Z.eqb (item_id it) id); cbn [map]; rewrite ?Hg, ?IH; reflexivity.
Qed.

Lemma map_item_id_update id cs its :
  map item_id (update_item id (set_claims cs) its) = map item_id its.
Proof. apply map_update_item. reflexivity. Qed.

Lemma map_item_id_reset k its :
  map item_id (map (fun it => set_claims (without_user k (claimed_by it)) it) its) =
  map item_id its.
Proof. rewrite map_map. reflexivity. Qed.

Lemma Forall_update_item (P : item A -> Prop) id cs its :
  Forall P its ->
  (forall it, find (fun it => Z.eqb (item_id it) id) its = Some it -> P (set_claims cs it)) ->
  Forall P (update_item id (set_claims cs) its).
Proof.
  induction 1 as [|it r Hit Hr IH]; intro Hnew; cbn [update_item]; [constructor|].
  cbn [find] in Hnew. destruct (Z.eqb (item_id it) id).
  - constructor; [apply Hnew; reflexivity | exact Hr].
  - constructor; [exact Hit | apply IH, Hnew].
Qed.

End ItemLists.

#[global] Hint Rewrite @map_item_id_update @map_item_id_reset : bill_db.

Ltac open_handlers Hrun :=
  unfold cmd_join, cmd_additem, cmd_pick, cmd_unpick, cmd_assign, cmd_resetpicks,
    cmd_setfees, cmd_done, cmd_cancel, text_handler, callback_handler in Hrun;
  cbv zeta in Hrun.

(** Case analysis of [handle b u e = Save b' r]: one goal per way of saving,
    the photo handler's loop left as [add_all]. *)
Ltac handle_cases e Hrun :=
  destruct e; cbn [handle] in Hrun;
  [..| apply photo_handler_saves in Hrun; subst | ];
  try (open_handlers Hrun; split_save).

Lemma ids_ok_add {A} (b : bill A) n p : ids_ok b -> ids_ok (fst (add_item_to_bill b n p)).
Proof.
  unfold ids_ok. autorewrite with bill_db. rewrite map_app. cbn [map item_id].
  intros [Hnd Hlt]. split.
  - eapply Permutation_NoDup; [apply Permutation_cons_append|].
    constructor; [|exact Hnd]. intro Hin.
    rewrite Forall_forall in Hlt. specialize (Hlt _ Hin). lia.
  - apply Forall_app. split.
    + eapply Forall_impl; [|exact Hlt]. cbn beta. lia.
    + constructor; [lia | constructor].
Qed.

Lemma ids_ok_frame {A} (b b' : bill A) :
  items b' = items b -> next_item_id b' = next_item_id b -> ids_ok b -> ids_ok b'.
Proof. unfold ids_ok. intros -> ->. exact id. Qed.

Lemma claims_nodup_add {A} (b : bill A) n p :
  claims_nodup b -> claims_nodup (fst (add_item_to_bill b n p)).
Proof.
  unfold claims_nodup. autorewrite with bill_db. intro Hb.
  apply Forall_app. split; [exact Hb | repeat constructor].
Qed.

Lemma nodup_claims_app_new k n cs :
  NoDup (map claim_user_id cs) -> has_claim k cs = false ->
  NoDup (map claim_user_id (cs ++ [mk_claim k n])).
Proof.
  intros Hnd Hk. rewrite map_app. cbn [map claim_user_id].
  eapply Permutation_NoDup; [apply Permutation_cons_append|].
  constructor; [|exact Hnd]. intro Hin. apply has_claim_in in Hin. congruence.
Qed.

Lemma in_without k c cs : In c (without_user k cs) -> In c cs /\ claim_user_id c <> k.
Proof.
  unfold without_user. rewrite filter_In. intros [Hc Hk]. split; [exact Hc|].
  apply negb_true_iff, Z.eqb_neq in Hk. exact Hk.
Qed.

Lemma nodup_without k cs :
  NoDup (map claim_user_id cs) -> NoDup (map claim_user_id (without_user k cs)).
Proof.
  induction cs as [|c r IH]; [auto|]. rewrite without_user_cons. cbn [map].
  intro Hnd. inversion Hnd as [|? ? Hnotin Hnd']; subst.
  destruct (Z.eqb (claim_user_id c) k); [auto|]. cbn [map]. constructor; [|auto].
  intro Hin. apply Hnotin. apply in_map_iff in Hin as (c' & Heq & Hc').
  apply in_without in Hc' as [Hc' _]. rewrite <- Heq. apply in_map. exact Hc'.
Qed.

(** In a goal about [update_item id (set_claims cs)], name the item the
    handler read with [get_item] and recall the invariant's fact about it. *)
Ltac found_item Hinv :=
  apply Forall_update_item; [assumption|];
  let it := fresh "it" in let Hf := fresh "Hf" in let Hin := fresh "Hin" in
  intros it Hf; pose proof (find_some _ _ Hf) as [Hin _];
  rewrite Forall_forall in Hinv; specialize (Hinv _ Hin);
  match goal with
  | Hg : get_item _ _ = Some _ |- _ =>
      unfold get_item in Hg; autorewrite with bill_db in Hg; rewrite Hf in Hg;
      injection Hg as <-
  end;
  rewrite claimed_by_set_claims.

(** Every handler keeps the item ids distinct and below [next_item_id]: the
    only writers of items either edit an item's claims in place or append
    through [add_item_to_bill], which numbers the new item [next_item_id] and
    then increments it. *)
Theorem ids_ok_preserved {A} `{PyNum A} (b : bill A) (u : user) (e : event A) b' r
  (Hinv : ids_ok b) (Hrun : handle b u e = Save b' r) : ids_ok b'.
Proof.
  handle_cases e Hrun.
  all: try (apply ids_ok_add; assumption).
  all: try (apply (add_all_ind _ (fun _ => True));
            [ intros; apply ids_ok_add; assumption
            | apply Forall_forall; trivial
            | apply (ids_ok_frame b); autorewrite with bill_db; trivial ]).
  all: unfold ids_ok in *; autorewrite with bill_db; assumption.
Qed.

(** Every handler keeps each item's claim list free of repeated members:
    [/pick], [/assign] and the pick button append a claim only after checking
    the member has none on the item, and removals only filter. *)
Theorem claims_nodup_preserved {A} `{PyNum A} (b : bill A) (u : user) (e : event A) b' r
  (Hinv : claims_nodup b) (Hrun : handle b u e = Save b' r) : claims_nodup b'.
Proof.
  handle_cases e Hrun.
  all: try (apply claims_nodup_add; assumption).
  all: try (apply (add_all_ind _ (fun _ => True));
            [ intros; apply claims_nodup_add; assumption
            | apply Forall_forall; trivial
            | unfold claims_nodup in *; autorewrite with bill_db; assumption ]).
  all: unfold claims_nodup in *; autorewrite with bill_db; try assumption.
  all: try (apply Forall_map; eapply Forall_impl; [|exact Hinv];
            intros it Hit; apply nodup_without, Hit).
  all: found_item Hinv; first [apply nodup_without, Hinv | apply nodup_claims_app_new; assumption].
Qed.

Lemma dict_has_in {V} k (d : list (Z * V)) : dict_has k d = true <-> In k (map fst d).
Proof.
  unfold dict_has. rewrite existsb_exists, in_map_iff. split.
  - intros (kv & Hin & Hk). apply Z.eqb_eq in Hk. exists kv. auto.
  - intros (kv & Hk & Hin). exists kv. split; [exact Hin|]. apply Z.eqb_eq. exact Hk.
Qed.

Lemma dict_has_set {V} k k' (v : V) d :
  dict_has k (dict_set k' v d) = orb (Z.eqb k' k) (dict_has k d).
Proof.
  unfold dict_has. induction d as [|[k0 v0] r IH]; cbn [dict_set existsb fst].
  - rewrite orb_false_r. reflexivity.
  - destruct (Z.eqb_spec k' k0) as [->|Hne]; cbn [existsb fst].
    + destruct (Z.eqb k0 k); reflexivity.
    + rewrite IH. destruct (Z.eqb k0 k), (Z.eqb k' k); reflexivity.
Qed.


Lemma find_member_has mem t k n : find_member mem t = Some (k, n) -> dict_has k mem = true.
Proof.
  unfold find_member. intro Hf. apply find_some in Hf as [Hin _].
  apply dict_has_in, in_map_iff. exists (k, n). auto.
Qed.

Lemma Forall_without (P : claim -> Prop) k cs : Forall P cs -> Forall P (without_user k cs).
Proof.
  rewrite !Forall_forall. intros HP c Hc. apply in_without in Hc as [Hc _]. auto.
Qed.

Lemma claimants_mono {A} (its : list (item A)) (m m' : list (Z * string)) :
  (forall k, dict_has k m = true -> dict_has k m' = true) ->
  Forall (fun it => Forall (fun c => dict_has (claim_user_id c) m = true) (claimed_by it)) its ->
  Forall (fun it => Forall (fun c => dict_has (claim_user_id c) m' = true) (claimed_by it)) its.
Proof.
  intros Hm Hits. eapply Forall_impl; [|exact Hits]. cbn beta. intros it Hit.
  eapply Forall_impl; [|exact Hit]. cbn beta. intros c. apply Hm.
Qed.

Lemma claimants_joined_add {A} (b : bill A) n p :
  claimants_joined b -> claimants_joined (fst (add_item_to_bill b n p)).
Proof.
  unfold claimants_joined. autorewrite with bill_db. intro Hb.
  apply Forall_app. split; [exact Hb | repeat constructor].
Qed.


(** Every handler keeps every claimant a member of the bill: [/pick] requires
    membership, [/assign] takes its target from [members], the pick button
    registers the tapping user first, and no handler removes a member. *)
Theorem claimants_joined_preserved {A} `{PyNum A} (b : bill A) (u : user) (e : event A) b' r
  (Hinv : claimants_joined b) (Hrun : handle b u e = Save b' r) : claimants_joined b'.
Proof.
  handle_cases e Hrun.
  all: try (apply claimants_joined_add; assumption).
  all: try (apply (add_all_ind _ (fun _ => True));
            [ intros; apply claimants_joined_add; assumption
            | apply Forall_forall; trivial
            | unfold claimants_joined in *; autorewrite with bill_db; assumption ]).
  all: unfold claimants_joined in *; autorewrite with bill_db; try assumption.
  all: repeat match goal with H : ?p = (_, _) |- _ => subst p end.
  (* the member added by /join or by the pick button *)
  all: try match goal with
           | |- context [dict_set ?k ?v ?m] =>
               apply (claimants_mono _ m (dict_set k v m)) in Hinv;
               [| intros k' Hk; rewrite dict_has_set, Hk; apply orb_true_r]
           end.
  all: try assumption.
  all: try (apply Forall_map; eapply Forall_impl; [|exact Hinv];
            intros it Hit; apply Forall_without, Hit).
  all: found_item Hinv.
  all: first [ apply Forall_without, Hinv
             | apply Forall_app; split; [exact Hinv|]; constructor; [|constructor];
               cbn [claim_user_id] ].
  all: first [ assumption
             | apply negb_false_iff; assumption
             | rewrite dict_has_set, Z.eqb_refl; reflexivity
             | eapply find_member_has; eassumption ].
Qed.







(** No handler removes, reorders or edits an item's id, name or price: the
    bill's items after any run start with the items before it. *)
Theorem items_only_appended {A} `{PyNum A} (b : bill A) (u : user) (e : event A) b' r
  (Hrun : handle b u e = Save b' r) :
  exists rest, map item_view (items b') = map item_view (items b) ++ rest.
Proof.
  handle_cases e Hrun.
  all: rewrite ?items_add_all; autorewrite with bill_db; rewrite ?map_app.
  all: first [ eexists; reflexivity
             | exists []; rewrite app_nil_r;
               first [ reflexivity
                     | apply map_update_item; reflexivity
                     | rewrite map_map; reflexivity
                     | congruence ] ].
Qed.

(** An open bill becomes finalized only through [/done] or the finalize
    button, only when it has items, and the run leaves its items as they were
    and records the finalization time. *)
Theorem finalized_only_by_done {A} `{PyNum A} (b : bill A) (u : user) (e : event A) b' r
  (Hopen : is_finalized b = false) (Hrun : handle b u e = Save b' r)
  (Hfin : is_finalized b' = true) :
  items b <> [] /\ items b' = items b /\
  exists now, (e = EvDone now \/ e = EvCallback (CbFinalize now)) /\ finalized_at b' = Some now.
Proof.
  handle_cases e Hrun.
  all: rewrite ?is_finalized_add_all in Hfin; autorewrite with bill_db in Hfin; try congruence.
  all: autorewrite with bill_db.
  all: (split; [congruence | split; [congruence|]]).
  all: eexists; split; [solve [left; reflexivity | right; reflexivity] | destruct b; reflexivity].
Qed.

Ltac split_delete :=
  repeat match goal with
  | H : Keep _ = Delete _ |- _ => discriminate H
  | H : Save _ _ = Delete _ |- _ => discriminate H
  | H : context [match ?x with _ => _ end] |- _ => destruct x eqn:?
  end.

(** The only handler run that deletes the bill is [/cancel] by its creator. *)
Theorem delete_only_by_creator {A} `{PyNum A} (b : bill A) (u : user) (e : event A) r
  (Hrun : handle b u e = Delete r) : e = EvCancel /\ uid u = creator_id b.
Proof.
  destruct e; cbn [handle] in Hrun;
    unfold photo_handler in Hrun; open_handlers Hrun; split_delete.
  split; [reflexivity|].
  match goal with H : negb (Z.eqb _ _) = false |- _ => apply negb_false_iff, Z.eqb_eq in H; exact H end.
Qed.





Lemma has_claim_without_other v k cs :
  v <> k -> has_claim v (without_user k cs) = has_claim v cs.
Proof.
  intro Hne. induction cs as [|c r IH]; [reflexivity|]. rewrite without_user_cons.
  unfold has_claim in *; cbn [existsb].
  destruct (Z.eqb_spec (claim_user_id c) k) as [Hk|Hk]; cbn [existsb].
  - rewrite IH. replace (Z.eqb (claim_user_id c) v) with false; [reflexivity|].
    symmetry. apply Z.eqb_neq. congruence.
  - rewrite IH. reflexivity.
Qed.

(** [/resetpicks] leaves the user holding no claim on any item, keeps which
    items every other member claims, and keeps every item's id, name and
    price. *)
Theorem resetpicks_clears {A} `{PyNum A} (b : bill A) (u : user) b' r
  (Hrun : cmd_resetpicks b u = Save b' r) :
  holds_claim b' (uid u) = false /\
  (forall v, v <> uid u ->
     map (fun it => has_claim v (claimed_by it)) (items b') =
     map (fun it => has_claim v (claimed_by it)) (items b)) /\
  map item_view (items b') = map item_view (items b).
Proof.
  unfold cmd_resetpicks in Hrun. split_save. unfold holds_claim. autorewrite with bill_db.
  split; [|split].
  - apply not_true_iff_false. rewrite existsb_exists. intros (it & Hin & Hc).
    apply in_map_iff in Hin as (it0 & <- & _).
    rewrite claimed_by_set_claims, has_claim_without in Hc. discriminate.
  - intros v Hv. rewrite map_map. apply map_ext. intro it.
    rewrite claimed_by_set_claims. apply has_claim_without_other, Hv.
  - rewrite map_map. reflexivity.
Qed.

(** [get_display_name] never returns the empty string. *)
Theorem display_name_nonempty (u : user) : get_display_name u <> ""%string.
Proof.
  unfold get_display_name.
  destruct (username u) as [n|]; [destruct (truthy (Some n)); [discriminate|]|].
  all: match goal with |- context [if String.eqb ?s "" then _ else _] =>
         destruct (String.eqb_spec s ""); [discriminate | assumption]
       end.
Qed.

Lemma find_app_none {T} (f : T -> bool) l1 l2 :
  find f l1 = None -> find f (l1 ++ l2) = find f l2.
Proof.
  induction l1 as [|x l1 IH]; cbn [find app]; [reflexivity|].
  destruct (f x); [discriminate | exact IH].
Qed.

Lemma find_app_some {T} (f : T -> bool) l1 l2 x :
  find f l1 = Some x -> find f (l1 ++ l2) = Some x.
Proof.
  induction l1 as [|y l1 IH]; cbn [find app]; [discriminate|].
  destruct (f y); [exact id | exact IH].
Qed.

Lemma find_none_forall {T} (f : T -> bool) l :
  (forall x, In x l -> f x = false) -> find f l = None.
Proof.
  induction l as [|x l IH]; cbn [find]; intro Hl; [reflexivity|].
  rewrite (Hl x (or_introl eq_refl)). apply IH. intros y Hy. apply Hl. right. exact Hy.
Qed.

(** On a bill whose ids are below [next_item_id], [add_item_to_bill] returns
    an unclaimed item numbered [next_item_id], [get_item] finds it under that
    id, the counter moves on by one, and every other id is looked up as
    before. *)
Theorem add_item_lookup {A} (b : bill A) (n : string) (p : A) (Hids : ids_ok b) :
  snd (add_item_to_bill b n p) = mk_item (next_item_id b) n p [] /\
  get_item (fst (add_item_to_bill b n p)) (next_item_id b) = Some (snd (add_item_to_bill b n p)) /\
  next_item_id (fst (add_item_to_bill b n p)) = next_item_id b + 1 /\
  (forall id, id <> next_item_id b ->
     get_item (fst (add_item_to_bill b n p)) id = get_item b id).
Proof.
  split; [reflexivity|]. unfold get_item. autorewrite with bill_db.
  split; [|split; [reflexivity|]].
  - rewrite find_app_none.
    + cbn [find item_id]. rewrite Z.eqb_refl. reflexivity.
    + apply find_none_forall. intros it Hin. apply Z.eqb_neq. intro Heq.
      destruct Hids as [_ Hlt]. rewrite Forall_forall in Hlt.
      specialize (Hlt (item_id it) (in_map _ _ _ Hin)). lia.
  - intros id Hid. destruct (find (fun it => Z.eqb (item_id it) id) (items b)) eqn:E.
    + apply find_app_some. exact E.
    + rewrite find_app_none by exact E. cbn [find item_id].
      replace (Z.eqb (next_item_id b) id) with false by (symmetry; apply Z.eqb_neq; congruence).
      reflexivity.
Qed.

Lemma awaiting_photo_add_all {A} (found : list (string * A)) (b : bill A) :
  awaiting_photo (add_all found b) = awaiting_photo b.
Proof.
  revert b; induction found as [|np found IH]; intro b; cbn [fold_left]; [reflexivity|].
  rewrite IH. destruct b; reflexivity.
Qed.

(** The photo handler appends the found items, in order, as unclaimed items
    numbered consecutively from [next_item_id], advances the counter by their
    number, keeps the members, clears [awaiting_photo], and answers with a
    notice exactly when nothing was found. *)
Theorem photo_appends {A} `{PyNum A} (b : bill A) (found : list (string * A)) b' r
  (Hrun : photo_handler b found = Save b' r) :
  items b' = items b ++ numbered_items (next_item_id b) found /\
  next_item_id b' = next_item_id b + Z.of_nat (List.length found) /\
  members b' = members b /\ awaiting_photo b' = false /\
  (r = Notice <-> found = []).
Proof.
  pose proof (photo_handler_saves b found b' r Hrun) as ->.
  rewrite items_add_all, next_item_id_add_all, members_add_all, awaiting_photo_add_all.
  autorewrite with bill_db. split; [reflexivity|]. split; [reflexivity|].
  split; [reflexivity|]. split; [destruct b; reflexivity|].
  unfold photo_handler in Hrun. destruct found; injection Hrun; intros; subst; split; congruence.
Qed.


Lemma update_item_same {A} id (its : list (item A)) it :
  find (fun it => Z.eqb (item_id it) id) its = Some it ->
  update_item id (set_claims (claimed_by it)) its = its.
Proof.
  induction its as [|x r IH]; cbn [find update_item]; [discriminate|].
  destruct (Z.eqb (item_id x) id).
  - intros [= <-]. destruct x; reflexivity.
  - intro Hf. rewrite IH by exact Hf. reflexivity.
Qed.

(** [/unpick] on an item removes the user's claim on it and keeps the other
    members' claims; when the user held no claim, the items are saved
    unchanged. *)
Theorem unpick_releases {A} `{PyNum A} (b : bill A) (u : user) (id : Z) (it : item A) b' r
  (Hit : get_item b id = Some it) (Hrun : cmd_unpick b u (Some id) = Save b' r) :
  (exists it', get_item b' id = Some it' /\ has_claim (uid u) (claimed_by it') = false /\
     forall v, v <> uid u -> has_claim v (claimed_by it') = has_claim v (claimed_by it)) /\
  (has_claim (uid u) (claimed_by it) = false -> items b' = items b).
Proof.
  unfold cmd_unpick in Hrun. rewrite Hit in Hrun. injection Hrun as <- _.
  split.
  - eexists. split; [apply get_item_with_item_claims, Hit|].
    rewrite claimed_by_set_claims. split; [apply has_claim_without|].
    intros v Hv. apply has_claim_without_other, Hv.
  - intro Hnone. rewrite without_user_absent by exact Hnone.
    autorewrite with bill_db. apply update_item_same, Hit.
Qed.

Section PayQ.
Open Scope Q_scope.
Implicit Types (b : bill Q).

Lemma no_claim_no_share b k :
  holds_claim b k = false -> forall it, In it (items b) -> has_claim k (claimed_by it) = false.
Proof.
  unfold holds_claim. intros Hk it Hin. apply not_true_iff_false. intro Hc.
  apply not_true_iff_false in Hk. apply Hk, existsb_exists. exists it. auto.
Qed.

Lemma share_bounds (it : item Q) : 0 <= price it -> 0 <= item_per_person it <= price it.
Proof.
  intro Hp. unfold item_per_person. qsimpl.
  destruct (Nat.ltb 0 (List.length (claimed_by it))) eqn:E; [|split; [exact Hp | apply Qle_refl]].
  apply Nat.ltb_lt in E.
  assert (Hn : 1 <= inject_Z (Z.of_nat (List.length (claimed_by it)))).
  { unfold Qle; cbn [Qnum Qden inject_Z]. lia. }
  assert (Hpos : 0 < inject_Z (Z.of_nat (List.length (claimed_by it)))).
  { eapply Qlt_le_trans; [|exact Hn]. reflexivity. }
  split.
  - apply Qle_shift_div_l; [exact Hpos|]. rewrite Qmult_0_l. exact Hp.
  - apply Qle_shift_div_r; [exact Hpos|].
    rewrite Qmult_comm. setoid_replace (price it) with (1 * price it) at 1 by ring.
    apply Qmult_le_compat_r; assumption.
Qed.

End PayQ.

(** In exact arithmetic a member who claims no item has a zero item subtotal,
    a zero grand-total share and a zero payable total, in every fee mode. *)
Theorem no_claim_pays_nothing (b : bill Q) (k : Z) (Hk : holds_claim b k = false) :
  (person_total b k == 0 /\ person_grand_total b k == 0 /\ payable b k == 0)%Q.
Proof.
  assert (Hpt : (person_total b k == 0)%Q).
  { rewrite person_total_sum, <- (sumQ_zero (items b)). apply sumQ_ext.
    intros it Hin. rewrite (no_claim_no_share b k Hk it Hin). reflexivity. }
  split; [exact Hpt | split].
  - unfold person_grand_total. qsimpl. destruct (Qeq_bool (bill_total b) (inject_Z 0));
      [reflexivity|]. rewrite Hpt. unfold Qdiv. ring.
  - destruct (Qeq_bool (bill_total b) (inject_Z 0)) eqn:E.
    + rewrite payable_zero_subtotal by exact E. reflexivity.
    + rewrite payable_mode_total by exact E. rewrite (mode_total_compat b _ _ Hpt).
      apply mode_total_zero.
Qed.

(** In exact arithmetic, with non-negative prices, a member's item subtotal
    lies between zero and the bill's subtotal. *)
Theorem person_total_bounds (b : bill Q) (k : Z)
  (Hprice : forall it, In it (items b) -> (0 <= price it)%Q) :
  (0 <= person_total b k <= bill_total b)%Q.
Proof.
  rewrite person_total_sum, bill_total_sum. split.
  - rewrite <- (sumQ_zero (items b)) at 1. apply sumQ_le. intros it Hin.
    destruct (has_claim k (claimed_by it)); [apply share_bounds, Hprice, Hin | apply Qle_refl].
  - apply sumQ_le. intros it Hin.
    destruct (has_claim k (claimed_by it)); [apply share_bounds, Hprice, Hin | apply Hprice, Hin].
Qed.

Lemma one_plus_pct_pos (x : Q) : (0 <= x -> 0 < 1 + x / 100)%Q.
Proof.
  intro Hx. apply Qlt_le_trans with 1%Q; [reflexivity|].
  setoid_replace 1%Q with (1 + 0)%Q at 1 by ring. apply Qplus_le_compat; [apply Qle_refl|].
  apply Qle_shift_div_l; [reflexivity|]. rewrite Qmult_0_l. exact Hx.
Qed.

Lemma hundred_plus_nonzero (x : Q) : (0 <= x -> ~ 100 + x == 0)%Q.
Proof.
  intros Hx E.
  assert (Hlt : (0 < 100 + x)%Q).
  { apply Qlt_le_trans with 100%Q; [reflexivity|].
    setoid_replace 100%Q with (100 + 0)%Q at 1 by ring.
    apply Qplus_le_compat; [apply Qle_refl | exact Hx]. }
  rewrite E in Hlt. exact (Qlt_irrefl _ Hlt).
Qed.

Lemma Qeq_bool_pos_false (x : Q) : (0 < x)%Q -> Qeq_bool x (inject_Z 0) = false.
Proof.
  intro Hx. apply not_true_iff_false. intro E. apply Qeq_bool_iff in E.
  rewrite E in Hx. exact (Qlt_irrefl _ Hx).
Qed.

(** In exact arithmetic, in the all-inclusive mode with non-negative
    percentages, the breakdown's total is the member's subtotal, and what is
    left of it after the service charge and VAT amounts is the pre-fee base:
    base times (1 + sc/100)(1 + vat/100) gives the subtotal back. *)
Theorem inclusive_backcalc (b : bill Q) (k : Z)
  (Hmode : fees_mode b = Some "both_inclusive"%string)
  (Hsc : (0 <= or0 (service_charge_pct b))%Q) (Hvat : (0 <= or0 (vat_pct b))%Q) :
  let '(s, sca, va, t) := person_fee_breakdown b k in
  (t == s /\
   (s - sca - va) * ((1 + or0 (service_charge_pct b) / 100) * (1 + or0 (vat_pct b) / 100)) == s)%Q.
Proof.
  unfold person_fee_breakdown. rewrite Hmode. cbn [mode_is String.eqb]. qsimpl.
  destruct (Qeq_bool (bill_total b) (inject_Z 0)); [split; reflexivity|].
  cbv zeta.
  set (sc := or0 (service_charge_pct b)) in *. set (vat := or0 (vat_pct b)) in *.
  set (p := person_total b k).
  pose proof (one_plus_pct_pos sc Hsc) as Hs. pose proof (one_plus_pct_pos vat Hvat) as Hv.
  rewrite Qeq_bool_pos_false by (apply Qmult_lt_0_compat; assumption).
  split; [reflexivity|].
  field. split; apply hundred_plus_nonzero; assumption.
Qed.

(** In exact arithmetic, in the service-charge-exclusive, VAT-inclusive mode
    with a non-negative VAT, the total is the subtotal plus the service
    charge, and the VAT amount is the VAT contained in the total: the total
    less VAT, times (1 + vat/100), gives the total back. *)
Theorem sc_exclusive_backcalc (b : bill Q) (k : Z)
  (Hmode : fees_mode b = Some "sc_exclusive_vat_inclusive"%string)
  (Hvat : (0 <= or0 (vat_pct b))%Q) :
  let '(s, sca, va, t) := person_fee_breakdown b k in
  (t == s + sca /\ (t - va) * (1 + or0 (vat_pct b) / 100) == t)%Q.
Proof.
  unfold person_fee_breakdown.
  replace (mode_is (fees_mode b) "both_inclusive") with false by (rewrite Hmode; reflexivity).
  replace (mode_is (fees_mode b) "sc_exclusive_vat_inclusive") with true
    by (rewrite Hmode; reflexivity).
  qsimpl.
  destruct (Qeq_bool (bill_total b) (inject_Z 0)); [split; reflexivity|].
  cbv beta iota zeta.
  set (sc := or0 (service_charge_pct b)) in *. set (vat := or0 (vat_pct b)) in *.
  set (p := person_total b k).
  split; [field|].
  destruct (Qeq_bool vat (inject_Z 0)) eqn:E.
  - apply Qeq_bool_iff in E. rewrite E. field.
  - field. apply hundred_plus_nonzero, Hvat.
Qed.


(** ** Examples: each property above at a concrete run *)

(** Close a goal about a concrete bill by evaluation. *)
Ltac concrete :=
  vm_compute; repeat (constructor || (intro; cbn in *; intuition discriminate)).

Lemma ids_ok_preserved_witness :
  ids_ok (saved_or (handle demo_table demo_ann (EvAddItem (list_ascii_of_string "Tea 40")))
                   demo_table).
Proof.
  apply (ids_ok_preserved demo_table demo_ann (EvAddItem (list_ascii_of_string "Tea 40")) _ Ok);
    [concrete | vm_compute; reflexivity].
Defined.

Lemma claims_nodup_preserved_witness :
  claims_nodup (saved_or (handle demo_table demo_bob (EvCallback (CbPick 1))) demo_table).
Proof.
  apply (claims_nodup_preserved demo_table demo_bob (EvCallback (CbPick 1)) _ Ok);
    [concrete | vm_compute; reflexivity].
Defined.

Lemma claimants_joined_preserved_witness :
  claimants_joined (saved_or (handle demo_table demo_dan (EvCallback (CbPick 3))) demo_table).
Proof.
  apply (claimants_joined_preserved demo_table demo_dan (EvCallback (CbPick 3)) _ Ok);
    [concrete | vm_compute; reflexivity].
Defined.



Lemma items_only_appended_witness :
  exists rest,
    map item_view (items (saved_or (handle demo_table demo_ann EvResetPicks) demo_table)) =
    map item_view (items demo_table) ++ rest.
Proof.
  apply (items_only_appended demo_table demo_ann EvResetPicks _ Ok). vm_compute. reflexivity.
Defined.

Lemma finalized_only_by_done_witness :
  let b' := saved_or (handle demo_table demo_bob (EvDone 7)) demo_table in
  items demo_table <> [] /\ items b' = items demo_table /\
  exists now, (@EvDone Q 7 = EvDone now \/ @EvDone Q 7 = EvCallback (CbFinalize now)) /\
              finalized_at b' = Some now.
Proof.
  intro b'. apply (finalized_only_by_done demo_table demo_bob (EvDone 7) b' Ok).
  - vm_compute. reflexivity.
  - vm_compute. reflexivity.
  - vm_compute. reflexivity.
Defined.

Lemma delete_only_by_creator_witness :
  EvCancel = @EvCancel Q /\ uid demo_ann = creator_id demo_table.
Proof.
  apply (delete_only_by_creator demo_table demo_ann EvCancel Ok). vm_compute. reflexivity.
Defined.



Lemma resetpicks_clears_witness :
  let b' := saved_or (cmd_resetpicks demo_table demo_ann) demo_table in
  holds_claim b' (uid demo_ann) = false /\
  (forall v, v <> uid demo_ann ->
     map (fun it => has_claim v (claimed_by it)) (items b') =
     map (fun it => has_claim v (claimed_by it)) (items demo_table)) /\
  map item_view (items b') = map item_view (items demo_table).
Proof.
  intro b'. apply (resetpicks_clears demo_table demo_ann b' Ok). vm_compute. reflexivity.
Defined.

Lemma add_item_lookup_witness :
  let r := add_item_to_bill demo_table "Tea"%string (40#1) in
  snd r = mk_item (next_item_id demo_table) "Tea"%string (40#1) [] /\
  get_item (fst r) (next_item_id demo_table) = Some (snd r) /\
  next_item_id (fst r) = next_item_id demo_table + 1 /\
  (forall id, id <> next_item_id demo_table -> get_item (fst r) id = get_item demo_table id).
Proof.
  intro r. apply (add_item_lookup demo_table "Tea"%string (40#1)). concrete.
Defined.

Lemma photo_appends_witness :
  let found := [("Tea"%string, 40#1); ("Ice"%string, 5#1)] in
  let b' := saved_or (photo_handler demo_table found) demo_table in
  items b' = items demo_table ++ numbered_items (next_item_id demo_table) found /\
  next_item_id b' = next_item_id demo_table + Z.of_nat (List.length found) /\
  members b' = members demo_table /\ awaiting_photo b' = false /\
  (Ok = Notice <-> found = []).
Proof.
  intros found b'. apply (photo_appends demo_table found b' Ok). vm_compute. reflexivity.
Defined.


Lemma unpick_releases_witness :
  let it := mk_item 2 "Tom Yum"%string (200#1) [mk_claim 1 "@ann"; mk_claim 2 "@bob"] in
  let b' := saved_or (cmd_unpick demo_table demo_bob (Some 2)) demo_table in
  (exists it', get_item b' 2 = Some it' /\ has_claim (uid demo_bob) (claimed_by it') = false /\
     forall v, v <> uid demo_bob -> has_claim v (claimed_by it') = has_claim v (claimed_by it)) /\
  (has_claim (uid demo_bob) (claimed_by it) = false -> items b' = items demo_table).
Proof.
  intros it b'. apply (unpick_releases demo_table demo_bob 2 it b' Ok).
  - vm_compute. reflexivity.
  - vm_compute. reflexivity.
Defined.

Lemma no_claim_pays_nothing_witness :
  (person_total demo_table 3 == 0 /\ person_grand_total demo_table 3 == 0 /\
   payable demo_table 3 == 0)%Q.
Proof. apply no_claim_pays_nothing. vm_compute. reflexivity. Defined.

Lemma person_total_bounds_witness :
  (0 <= person_total demo_table 2 <= bill_total demo_table)%Q.
Proof.
  apply person_total_bounds. intros it Hit. vm_compute in Hit.
  repeat (destruct Hit as [<-|Hit]; [vm_compute; discriminate|]). destruct Hit.
Defined.

Lemma inclusive_backcalc_witness :
  let b := with_fees demo_table (Some (10#1)) (Some (7#1)) (Some "both_inclusive"%string) in
  let '(s, sca, va, t) := person_fee_breakdown b 2 in
  (t == s /\
   (s - sca - va) * ((1 + or0 (service_charge_pct b) / 100) * (1 + or0 (vat_pct b) / 100)) == s)%Q.
Proof.
  apply inclusive_backcalc; vm_compute; [reflexivity | discriminate | discriminate].
Defined.

Lemma sc_exclusive_backcalc_witness :
  let b := with_fees demo_table (Some (10#1)) (Some (7#1))
             (Some "sc_exclusive_vat_inclusive"%string) in
  let '(s, sca, va, t) := person_fee_breakdown b 2 in
  (t == s + sca /\ (t - va) * (1 + or0 (vat_pct b) / 100) == t)%Q.
Proof.
  apply sc_exclusive_backcalc; vm_compute; [reflexivity | discriminate].
Defined.
